(** * hx-adl: SQL schema generation from ADL declarations

    A shallow embedding of [typescript/hx-adl/src/gen-sqlschema.ts]
    together with the properties of its type-to-column mapper and of the
    order in which the generated statements are written.

    JavaScript exceptions are values of [result]; recursion that the
    source leaves unbounded carries a fuel argument and reports
    [OutOfFuel] when the fuel is used up. *)

From Stdlib Require Import String Ascii List Bool Arith Lia ZArith.
From Stdlib Require Import Sorting.Sorted Sorting.Permutation.
From Stdlib Require DecimalString.
Import ListNotations.
Local Open Scope list_scope.
Local Open Scope string_scope.

(** ** Results of fallible computations *)

Inductive exn : Type :=
| TypeError                                   (* e.g. reading a property of [undefined] *)
| UnresolvedName (moduleName name : string).  (* thrown by the declaration resolver *)

Inductive result (A : Type) : Type :=
| Ok (a : A)
| Throw (e : exn)
| OutOfFuel.

Arguments Ok {A} a.
Arguments Throw {A} e.
Arguments OutOfFuel {A}.

Definition bind {A B : Type} (r : result A) (k : A -> result B) : result B :=
  match r with
  | Ok a => k a
  | Throw e => Throw e
  | OutOfFuel => OutOfFuel
  end.

Notation "x <- r ;; k" := (bind r (fun x => k))
  (at level 61, r at next level, right associativity).

Definition fromOption {A : Type} (e : exn) (o : option A) : result A :=
  match o with
  | Some a => Ok a
  | None => Throw e
  end.

(** ** The ADL syntax tree (adl-gen/sys/adlast) *)

Record ScopedName : Type := scopedName { moduleName : string; name : string }.

Definition scopedNamesEqual (sn1 sn2 : ScopedName) : bool :=
  (moduleName sn1 =? moduleName sn2) && (name sn1 =? name sn2).

Inductive TypeRef : Type :=
| primitive (p : string)
| typeParam (p : string)
| reference (sn : ScopedName).

Unset Elimination Schemes.
Inductive TypeExpr : Type :=
| mkTypeExpr (typeRef : TypeRef) (parameters : list TypeExpr).
Set Elimination Schemes.

Definition typeRef (te : TypeExpr) : TypeRef :=
  match te with mkTypeExpr r _ => r end.

Definition parameters (te : TypeExpr) : list TypeExpr :=
  match te with mkTypeExpr _ ps => ps end.

(** Annotation payloads.  The generator reads a table annotation at the
    types it declares for the properties ([boolean], [string[]],
    [string[][]]); an object is therefore kept as the record of those
    optional properties, and a property that is absent is [None]. *)
Record DbTableProps : Type := {
  tableName : option string;
  withIdPrimaryKey : option bool;
  withPrimaryKey : option (list string);
  indexes : option (list (list string));
  uniquenessConstraints : option (list (list string));
  extraSql : option (list string)
}.

Inductive Json : Type :=
| JNull
| JString (s : string)
| JObject (o : DbTableProps).

Definition Annotations : Type := list (ScopedName * Json).

Record Field : Type := {
  field_name : string;
  field_typeExpr : TypeExpr;
  field_annotations : Annotations
}.

Record Struct : Type := { struct_typeParams : list string; struct_fields : list Field }.
Record Union : Type := { union_typeParams : list string; union_fields : list Field }.
Record TypeDef : Type := { type_typeParams : list string; type_typeExpr : TypeExpr }.
Record NewType : Type := { newtype_typeParams : list string; newtype_typeExpr : TypeExpr }.

Inductive DeclType : Type :=
| struct_ (value : Struct)
| union_ (value : Union)
| type_ (value : TypeDef)
| newtype_ (value : NewType).

Record Decl : Type := {
  decl_name : string;
  type__ : DeclType;
  decl_annotations : Annotations
}.

Record ScopedDecl : Type := { sd_moduleName : string; decl : Decl }.

Record Module : Type := { module_name : string; decls : list Decl }.

(** A resolver throws on a name that is not declared: [None] here. *)
Definition DeclResolver : Type := ScopedName -> option ScopedDecl.

Definition resolve (resolver : DeclResolver) (sn : ScopedName) : result ScopedDecl :=
  fromOption (UnresolvedName (moduleName sn) (name sn)) (resolver sn).

(** ** Helpers of util.ts and of the ADL runtime *)

(** Modelled from the spec: [getAnnotation] of util.ts, which is not part
    of the sources at hand.  The annotations of a declaration are a
    mapping from annotation key to value; the value stored under the key
    is returned, [None] standing for [undefined]. *)
Fixpoint getAnnotation (annotations : Annotations) (atype : ScopedName) : option Json :=
  match annotations with
  | [] => None
  | (k, v) :: rest => if scopedNamesEqual k atype then Some v else getAnnotation rest atype
  end.

(** Modelled from the spec: [forEachDecl] of util.ts.  Every declaration
    of every loaded module is visited, module by module, and is handed
    over with the name of its module. *)
Definition forEachDecl (modules : list Module) : list ScopedDecl :=
  flat_map (fun m => map (fun d => {| sd_moduleName := module_name m; decl := d |}) (decls m))
           modules.

(** Modelled from the spec: the resolver built by the loader, a lookup of
    the scoped name among the declarations of the loaded modules. *)
Definition declResolver (modules : list Module) : DeclResolver :=
  fun sn =>
    find (fun sd => scopedNamesEqual (scopedName (sd_moduleName sd) (decl_name (decl sd))) sn)
         (forEachDecl modules).

(** The decoded form of a type expression.  [kind] is the tag the mapper
    switches on. *)
Unset Elimination Schemes.
Inductive DecodedTypeExpr : Type :=
| DPrim (k : string)
| DTypeParam (p : string)
| DNullable (elemType : DecodedTypeExpr)
| DReference (refScopedName : ScopedName) (dparameters : list DecodedTypeExpr).
Set Elimination Schemes.

Definition kind (d : DecodedTypeExpr) : string :=
  match d with
  | DPrim k => k
  | DTypeParam _ => "TypeParam"
  | DNullable _ => "Nullable"
  | DReference _ _ => "Reference"
  end.

(** Modelled from the spec: [decodeTypeExpr] of util.ts.  A type
    expression is classified as a primitive of some kind, as the
    dedicated nullable wrapper around its first parameter, or as a
    reference to a scoped name with decoded parameters.  The Maybe-style
    wrapper stays a reference here: the mapper below compares its name
    with [MAYBE] itself.  A type parameter is a shape of its own, which
    the mapper treats like any other unrecognised kind.  Decoding the
    missing parameter of a nullable wrapper reads a property of
    [undefined]. *)
Fixpoint decodeTypeExpr (te : TypeExpr) : result DecodedTypeExpr :=
  match te with
  | mkTypeExpr (primitive p) ps =>
      if p =? "Nullable" then
        match ps with
        | [] => Throw TypeError
        | p0 :: _ => d <- decodeTypeExpr p0 ;; Ok (DNullable d)
        end
      else Ok (DPrim p)
  | mkTypeExpr (typeParam p) _ => Ok (DTypeParam p)
  | mkTypeExpr (reference sn) ps =>
      ds <- (fix decodeAll (l : list TypeExpr) : result (list DecodedTypeExpr) :=
               match l with
               | [] => Ok []
               | p :: l' => d <- decodeTypeExpr p ;; ds <- decodeAll l' ;; Ok (d :: ds)
               end) ps ;;
      Ok (DReference sn ds)
  end.

(** Positional binding of the declared type parameters to the actual
    ones, and the substitution of the bindings in a type expression. *)
Fixpoint createTypeBindings (tparams : list string) (actuals : list TypeExpr)
  : list (string * TypeExpr) :=
  match tparams, actuals with
  | n :: tparams', a :: actuals' => (n, a) :: createTypeBindings tparams' actuals'
  | _, _ => []
  end.

Fixpoint lookupBinding (bindings : list (string * TypeExpr)) (n : string) : option TypeExpr :=
  match bindings with
  | [] => None
  | (m, te) :: rest => if m =? n then Some te else lookupBinding rest n
  end.

Fixpoint substituteTypeBindings (bindings : list (string * TypeExpr)) (te : TypeExpr)
  : TypeExpr :=
  match te with
  | mkTypeExpr r ps =>
      let ps' := map (substituteTypeBindings bindings) ps in
      match r with
      | typeParam n =>
          match lookupBinding bindings n with
          | Some bound => bound
          | None => mkTypeExpr r ps'
          end
      | _ => mkTypeExpr r ps'
      end
  end.

(** Modelled from the spec: [expandTypeAlias] of util.ts.  For a
    reference whose declaration is a type alias the type parameters are
    substituted positionally in the aliased type expression; any other
    expression is not expandable ([None], the source's [null]). *)
Definition expandTypeAlias (resolver : DeclResolver) (te : TypeExpr)
  : result (option TypeExpr) :=
  match typeRef te with
  | reference sn =>
      sdecl <- resolve resolver sn ;;
      match type__ (decl sdecl) with
      | type_ td =>
          Ok (Some (substituteTypeBindings
                      (createTypeBindings (type_typeParams td) (parameters te))
                      (type_typeExpr td)))
      | _ => Ok None
      end
  | _ => Ok None
  end.

(** Modelled from the spec: [expandNewType] of util.ts, the same for a
    reference whose declaration is a newtype. *)
Definition expandNewType (resolver : DeclResolver) (te : TypeExpr)
  : result (option TypeExpr) :=
  match typeRef te with
  | reference sn =>
      sdecl <- resolve resolver sn ;;
      match type__ (decl sdecl) with
      | newtype_ nt =>
          Ok (Some (substituteTypeBindings
                      (createTypeBindings (newtype_typeParams nt) (parameters te))
                      (newtype_typeExpr nt)))
      | _ => Ok None
      end
  | _ => Ok None
  end.

(** Modelled from the spec: [isEnum] of the ADL runtime.  A union is an
    enumeration when none of its fields carries a payload, that is when
    every field has the primitive type Void. *)
Definition isVoid (te : TypeExpr) : bool :=
  match typeRef te with
  | primitive p => p =? "Void"
  | _ => false
  end.

Definition isEnum (u : Union) : bool :=
  forallb (fun f => isVoid (field_typeExpr f)) (union_fields u).

(** ** gen-sqlschema.ts: names and profiles *)

Definition MAYBE := scopedName "sys.types" "Maybe".
Definition DB_TABLE := scopedName "common.db" "DbTable".
Definition DB_COLUMN_NAME := scopedName "common.db" "DbColumnName".
Definition DB_KEY := scopedName "common.db" "DbKey".
Definition INSTANT := scopedName "common" "Instant".
Definition LOCAL_DATE := scopedName "common" "LocalDate".
Definition LOCAL_DATETIME := scopedName "common" "LocalDateTime".

Record DbProfile : Type := {
  idColumnType : string;
  enumColumnType : string;
  primColumnType : string -> string
}.

(** A JavaScript [switch] over string cases, each returning its value;
    control reaches [default] when no case label equals the subject. *)
Fixpoint switch (subject : string) (cases : list (string * string)) (default : string)
  : string :=
  match cases with
  | [] => default
  | (label, value) :: rest =>
      if subject =? label then value else switch subject rest default
  end.

Definition postgresPrimTable : list (string * string) :=
  [ ("String", "text"); ("Bool", "boolean"); ("Json", "json");
    ("Int8", "smallint"); ("Int16", "smallint"); ("Int32", "integer");
    ("Int64", "bigint"); ("Word8", "smallint"); ("Word16", "smallint");
    ("Word32", "integer"); ("Word64", "bigint"); ("Float", "real");
    ("Double", "double precision") ].

Definition postgresDbProfile : DbProfile := {|
  idColumnType := "text";
  enumColumnType := "text";
  primColumnType := fun ptype => switch ptype postgresPrimTable "json"
|}.

Definition postgres2PrimTable : list (string * string) :=
  [ ("String", "text"); ("Bool", "boolean"); ("Json", "jsonb");
    ("Int8", "smallint"); ("Int16", "smallint"); ("Int32", "integer");
    ("Int64", "bigint"); ("Word8", "smallint"); ("Word16", "smallint");
    ("Word32", "integer"); ("Word64", "bigint"); ("Float", "real");
    ("Double", "double precision") ].

Definition postgres2DbProfile : DbProfile := {|
  idColumnType := "text";
  enumColumnType := "text";
  primColumnType := fun ptype => switch ptype postgres2PrimTable "jsonb"
|}.

Definition mssql2PrimTable : list (string * string) :=
  [ ("String", "nvarchar(max)"); ("Int8", "smallint"); ("Int16", "smallint");
    ("Int32", "int"); ("Int64", "bigint"); ("Word8", "smallint");
    ("Word16", "smallint"); ("Word32", "int"); ("Word64", "bigint");
    ("Float", "float(24)"); ("Double", "float(53)"); ("Bool", "bit") ].

Definition mssql2DbProfile : DbProfile := {|
  idColumnType := "nvchar(64)";
  enumColumnType := "nvchar(64)";
  primColumnType := fun ptype => switch ptype mssql2PrimTable "nvarchar(max)"
|}.

(** ** gen-sqlschema.ts: the type-to-column mapper *)

Record ForeignKey : Type := { table : string; column : string }.

Record ColumnType : Type := { sqltype : string; fkey : option ForeignKey }.

Section Generator.

(** [snakeCase] comes from the change-case package. *)
Variable snakeCase : string -> string.

(** Returns the SQL name for the table. *)
Definition getTableName (scopedDecl : ScopedDecl) : string :=
  match getAnnotation (decl_annotations (decl scopedDecl)) DB_TABLE with
  | Some (JObject o) =>
      match tableName o with
      | Some s => s
      | None => snakeCase (decl_name (decl scopedDecl))
      end
  | _ => snakeCase (decl_name (decl scopedDecl))
  end.

(** Returns the SQL name for a column corresponding to a field. *)
Definition getColumnName (field : Field) : string :=
  match getAnnotation (field_annotations field) DB_COLUMN_NAME with
  | Some (JString s) => s
  | _ => snakeCase (field_name field)
  end.

(** [typeExprToStringUnscoped] comes from the ADL runtime (utils). *)
Variable typeExprToStringUnscoped : TypeExpr -> string.

Section WithResolver.

Variable resolver : DeclResolver.

Definition isEnumDecl (sdecl : ScopedDecl) : bool :=
  match type__ (decl sdecl) with
  | union_ u => isEnum u
  | _ => false
  end.

(** [texpr2 = null || expandTypeAlias(..); texpr2 = texpr2 || expandNewType(..)] *)
Definition expandAliasOrNewType (te : TypeExpr) : result (option TypeExpr) :=
  texpr2 <- expandTypeAlias resolver te ;;
  match texpr2 with
  | Some te2 => Ok (Some te2)
  | None => expandNewType resolver te
  end.

Fixpoint getColumnType1 (fuel : nat) (typeExpr : TypeExpr) (dbProfile : DbProfile)
  : result string :=
  match fuel with
  | O => OutOfFuel
  | S fuel' =>
      dtype <- decodeTypeExpr typeExpr ;;
      match dtype with
      | DReference refScopedName _ =>
          sdecl <- resolve resolver refScopedName ;;
          if scopedNamesEqual refScopedName INSTANT then Ok "timestamp"
          else if scopedNamesEqual refScopedName LOCAL_DATE then Ok "date"
          else if scopedNamesEqual refScopedName LOCAL_DATETIME then Ok "timestamp"
          else if isEnumDecl sdecl then Ok (enumColumnType dbProfile)
          else
            texpr2 <- expandAliasOrNewType typeExpr ;;
            match texpr2 with
            | Some te2 => getColumnType1 fuel' te2 dbProfile
            | None => Ok (primColumnType dbProfile (kind dtype))
            end
      | _ => Ok (primColumnType dbProfile (kind dtype))
      end
  end.

Definition getForeignKeyRef (typeExpr : TypeExpr) : result (option ForeignKey) :=
  dtype <- decodeTypeExpr typeExpr ;;
  match dtype with
  | DReference refScopedName dparams =>
      if scopedNamesEqual refScopedName DB_KEY then
        match dparams with
        | [] => Throw TypeError
        | DReference sn0 _ :: _ =>
            sdecl <- resolve resolver sn0 ;;
            Ok (Some {| table := getTableName sdecl; column := "id" |})
        | _ :: _ => Ok None
        end
      else Ok None
  | _ => Ok None
  end.

(** [typeExpr.parameters[0]] handed on to a function that decodes it. *)
Definition parameter0 (typeExpr : TypeExpr) : result TypeExpr :=
  fromOption TypeError (nth_error (parameters typeExpr) 0).

Definition isNullableWrapper (dtype : DecodedTypeExpr) : bool :=
  match dtype with
  | DNullable _ => true
  | DReference refScopedName _ => scopedNamesEqual refScopedName MAYBE
  | _ => false
  end.

Definition getColumnType (fuel : nat) (typeExpr : TypeExpr) (dbProfile : DbProfile)
  : result ColumnType :=
  dtype <- decodeTypeExpr typeExpr ;;
  if isNullableWrapper dtype then
    p0 <- parameter0 typeExpr ;;
    s <- getColumnType1 fuel p0 dbProfile ;;
    fk <- getForeignKeyRef p0 ;;
    Ok {| sqltype := s; fkey := fk |}
  else
    s <- getColumnType1 fuel typeExpr dbProfile ;;
    fk <- getForeignKeyRef typeExpr ;;
    Ok {| sqltype := s ++ " not null"; fkey := fk |}.

End WithResolver.

(** ** gen-sqlschema.ts: the schema generator *)

(** The entries of [dbTables]. *)
Record DbTable : Type := {
  dbt_scopedDecl : ScopedDecl;
  dbt_struct : Struct;
  dbt_ann : Json;
  dbt_name : string
}.

(** A line of a [create table] statement: [{code, comment?}]. *)
Record Line : Type := { code : string; comment : option string }.

(** The state the generator mutates: what has been written to the output
    stream, one entry per call of [writer.write], and the two arrays
    [constraints] and [allExtraSql]. *)
Record GenState : Type := {
  written : list string;
  constraints : list string;
  allExtraSql : list string
}.

Definition write (chunk : string) (st : GenState) : GenState :=
  {| written := (written st ++ [chunk])%list;
     constraints := constraints st;
     allExtraSql := allExtraSql st |}.

Definition pushConstraint (c : string) (st : GenState) : GenState :=
  {| written := written st;
     constraints := (constraints st ++ [c])%list;
     allExtraSql := allExtraSql st |}.

Definition concatExtraSql (extra : list string) (st : GenState) : GenState :=
  {| written := written st;
     constraints := constraints st;
     allExtraSql := (allExtraSql st ++ extra)%list |}.

(** [t.ann && t.ann[prop] || dflt]: the property of an object, the
    default for any other annotation value. *)
Definition annProp {A : Type} (ann : Json) (prop : DbTableProps -> option A) (dflt : A) : A :=
  match ann with
  | JObject o => match prop o with Some v => v | None => dflt end
  | _ => dflt
  end.

(** [t.ann && t.ann['withIdPrimaryKey'] || false] *)
Definition annFlag (ann : Json) (prop : DbTableProps -> option bool) : bool :=
  annProp ann prop false.

(** The line feed the source writes as a backslash escape. *)
Definition newline : string := String "010"%char EmptyString.

(** Decimal rendering of a number inside a template string. *)
Definition numberToString (n : nat) : string :=
  DecimalString.NilEmpty.string_of_uint (Nat.to_uint n).

(** [String.prototype.padEnd] *)
Fixpoint spaces (n : nat) : string :=
  match n with
  | O => ""
  | S n' => String " " (spaces n')
  end.

Definition padEnd (targetLength : nat) (s : string) : string :=
  s ++ spaces (targetLength - String.length s).

(** [String.prototype.replace] with a string pattern: the first
    occurrence only. *)
Fixpoint dropChars (n : nat) (s : string) : string :=
  match n, s with
  | S n', String _ s' => dropChars n' s'
  | _, _ => s
  end.

Fixpoint replaceFirst (pattern replacement s : string) : string :=
  if String.prefix pattern s then replacement ++ dropChars (String.length pattern) s
  else match s with
       | EmptyString => EmptyString
       | String c s' => String c (replaceFirst pattern replacement s')
       end.

(** A few text changes to comments to make them consistent with the old
    generator. *)
Definition tweakTypeComment (comment : string) : string :=
  replaceFirst "Instant" "common.Instant" (replaceFirst "DbKey" "common.db.DbKey" comment).

(** [Array.prototype.sort] with a comparator: the order is the
    comparator's and elements that compare equal keep their relative
    order.  Each element is inserted behind the elements of the sorted
    prefix that do not compare greater. *)
Fixpoint insertSorted {A : Type} (cmp : A -> A -> Z) (x : A) (sorted : list A) : list A :=
  match sorted with
  | [] => [x]
  | y :: rest =>
      if (cmp x y <? 0)%Z then x :: y :: rest else y :: insertSorted cmp x rest
  end.

Definition sort {A : Type} (cmp : A -> A -> Z) (l : list A) : list A :=
  fold_left (fun sorted x => insertSorted cmp x sorted) l [].

(** [(t1, t2) => t1.name < t2.name ? -1 : t1.name > t2.name ? 1 : 0];
    [<] on strings compares them code unit by code unit. *)
Definition compareTables (t1 t2 : DbTable) : Z :=
  if String.ltb (dbt_name t1) (dbt_name t2) then (-1)%Z
  else if String.ltb (dbt_name t2) (dbt_name t1) then 1%Z
  else 0%Z.

(** [new Set(..)] followed by [Array.from(set.keys())]: the distinct
    elements in the order of their first occurrence. *)
Fixpoint setKeys (seen : list string) (l : list string) : list string :=
  match l with
  | [] => []
  | x :: rest =>
      if existsb (String.eqb x) seen then setKeys seen rest
      else x :: setKeys (x :: seen) rest
  end.

(** The callback passed to [forEachDecl]: struct declarations that have
    a DbTable annotation.  [ann != undefined] is a loose comparison, so a
    [null] annotation value does not pass it. *)
Definition dbTableOfDecl (scopedDecl : ScopedDecl) : list DbTable :=
  match type__ (decl scopedDecl) with
  | struct_ struct =>
      match getAnnotation (decl_annotations (decl scopedDecl)) DB_TABLE with
      | None | Some JNull => []
      | Some ann =>
          [ {| dbt_scopedDecl := scopedDecl; dbt_struct := struct; dbt_ann := ann;
               dbt_name := getTableName scopedDecl |} ]
      end
  | _ => []
  end.

Definition collectDbTables (modules : list Module) : list DbTable :=
  sort compareTables (flat_map dbTableOfDecl (forEachDecl modules)).

(** [findColName], local to the loop over the tables. *)
Fixpoint findColNameIn (fields : list Field) (s : string) : string :=
  match fields with
  | [] => s
  | f :: rest => if field_name f =? s then getColumnName f else findColNameIn rest s
  end.

Definition findColName (t : DbTable) (s : string) : string :=
  findColNameIn (struct_fields (dbt_struct t)) s.

Definition fkeyConstraint (t : DbTable) (columnName : string) (fk : ForeignKey) : string :=
  "alter table " ++ dbt_name t ++ " add constraint " ++ dbt_name t ++ "_" ++ columnName
  ++ "_fk foreign key (" ++ columnName ++ ") references " ++ table fk
  ++ "(" ++ column fk ++ ");".

Definition indexConstraint (t : DbTable) (i : nat) (cols : list string) : string :=
  "create index " ++ dbt_name t ++ "_" ++ numberToString (i + 1) ++ "_idx on "
  ++ dbt_name t ++ "(" ++ String.concat ", " cols ++ ");".

Definition uniquenessConstraint (t : DbTable) (i : nat) (cols : list string) : string :=
  "alter table " ++ dbt_name t ++ " add constraint " ++ dbt_name t ++ "_"
  ++ numberToString (i + 1) ++ "_con unique (" ++ String.concat ", " cols ++ ");".

(** The body of [for(const f of t.struct.value.fields)]. *)
Definition fieldStep (resolver : DeclResolver) (fuel : nat) (dbProfile : DbProfile)
  (t : DbTable) (f : Field) (acc : list Line * GenState) : result (list Line * GenState) :=
  let columnName := getColumnName f in
  columnType <- getColumnType resolver fuel (field_typeExpr f) dbProfile ;;
  let line :=
    {| code := columnName ++ " " ++ sqltype columnType;
       comment := Some (tweakTypeComment (typeExprToStringUnscoped (field_typeExpr f))) |} in
  let lines := (fst acc ++ [line])%list in
  match fkey columnType with
  | Some fk => Ok (lines, pushConstraint (fkeyConstraint t columnName fk) (snd acc))
  | None => Ok (lines, snd acc)
  end.

Fixpoint fieldsLoop (resolver : DeclResolver) (fuel : nat) (dbProfile : DbProfile)
  (t : DbTable) (fields : list Field) (acc : list Line * GenState)
  : result (list Line * GenState) :=
  match fields with
  | [] => Ok acc
  | f :: rest =>
      acc' <- fieldStep resolver fuel dbProfile t f acc ;;
      fieldsLoop resolver fuel dbProfile t rest acc'
  end.

(** [for(let i = 0; i < indexes.length; i++)] and the same loop over the
    uniqueness constraints, started at [i]. *)
Fixpoint indexesLoop (t : DbTable) (i : nat) (indexes : list (list string)) (st : GenState)
  : GenState :=
  match indexes with
  | [] => st
  | group :: rest =>
      indexesLoop t (S i) rest
        (pushConstraint (indexConstraint t i (map (findColName t) group)) st)
  end.

Fixpoint uniquenessLoop (t : DbTable) (i : nat) (groups : list (list string)) (st : GenState)
  : GenState :=
  match groups with
  | [] => st
  | group :: rest =>
      uniquenessLoop t (S i) rest
        (pushConstraint (uniquenessConstraint t i (map (findColName t) group)) st)
  end.

(** One line of a table: a comma unless it is the last one, the comment
    if there is a non-empty one. *)
Definition renderLine (isLast : bool) (l : Line) : string :=
  let line := if isLast then code l else code l ++ "," in
  let line := match comment l with
              | Some c => if c =? "" then line else padEnd 36 line ++ " -- " ++ c
              | None => line
              end in
  "  " ++ line ++ newline.

(** [for(let i = 0; i < lines.length; i++)] writing the lines. *)
Fixpoint writeLines (lines : list Line) (st : GenState) : GenState :=
  match lines with
  | [] => st
  | l :: rest =>
      writeLines rest (write (renderLine (match rest with [] => true | _ => false end) l) st)
  end.

(** The body of [for(const t of dbTables)]. *)
Definition tableStep (resolver : DeclResolver) (fuel : nat) (dbProfile : DbProfile)
  (st : GenState) (t : DbTable) : result GenState :=
  let withIdPrimaryKey := annFlag (dbt_ann t) withIdPrimaryKey in
  let withPrimaryKey := annProp (dbt_ann t) withPrimaryKey [] in
  let indexes := annProp (dbt_ann t) indexes [] in
  let uniquenessConstraints := annProp (dbt_ann t) uniquenessConstraints [] in
  let extraSql := annProp (dbt_ann t) extraSql [] in
  let lines :=
    if withIdPrimaryKey
    then [ {| code := "id " ++ idColumnType dbProfile ++ " not null"; comment := None |} ]
    else [] in
  acc <- fieldsLoop resolver fuel dbProfile t (struct_fields (dbt_struct t)) (lines, st) ;;
  let lines := fst acc in
  let st := indexesLoop t 0 indexes (snd acc) in
  let st := uniquenessLoop t 0 uniquenessConstraints st in
  let lines :=
    if withIdPrimaryKey
    then (lines ++ [ {| code := "primary key(id)"; comment := None |} ])%list
    else if (0 <? List.length withPrimaryKey)%nat
    then
      let cols := map (findColName t) withPrimaryKey in
      let line := {| code := "primary key(" ++ String.concat "," cols ++ ")";
                     comment := None |} in
      (lines ++ [line])%list
    else lines in
  let st := write newline st in
  let st := write ("create table " ++ dbt_name t ++ "(" ++ newline) st in
  let st := writeLines lines st in
  let st := write (");" ++ newline) st in
  Ok (concatExtraSql extraSql st).

Fixpoint tablesLoop (resolver : DeclResolver) (fuel : nat) (dbProfile : DbProfile)
  (dbTables : list DbTable) (st : GenState) : result GenState :=
  match dbTables with
  | [] => Ok st
  | t :: rest =>
      st' <- tableStep resolver fuel dbProfile st t ;;
      tablesLoop resolver fuel dbProfile rest st'
  end.

(** [for(const constraint of constraints)] *)
Fixpoint writeConstraints (cs : list string) (st : GenState) : GenState :=
  match cs with
  | [] => st
  | c :: rest => writeConstraints rest (write (c ++ newline) st)
  end.

(** The property names a [for ... in] loop over an array enumerates:
    its indices, as strings. *)
Definition arrayKeys {A : Type} (a : list A) : list string :=
  map numberToString (seq 0 (List.length a)).

(** [for(const sql in allExtraSql)] *)
Fixpoint writeExtraSql (keys : list string) (st : GenState) : GenState :=
  match keys with
  | [] => st
  | sql :: rest => writeExtraSql rest (write (sql ++ newline) st)
  end.

(** What [parseAdl] returns: the loaded modules and their resolver. *)
Record LoadedAdl : Type := { adl_modules : list Module; adl_resolver : DeclResolver }.

(** [generateSqlSchema], from the loaded ADL on.  The result is the
    sequence of the strings written to the output file; an exception
    raised while a table is mapped ends the run. *)
Definition generateSqlSchema (fuel : nat) (loadedAdl : LoadedAdl) (dbProfile : DbProfile)
  : result (list string) :=
  let dbTables := collectDbTables (adl_modules loadedAdl) in
  let moduleNames := setKeys [] (map (fun dbt => sd_moduleName (dbt_scopedDecl dbt)) dbTables) in
  let st := {| written := []; constraints := []; allExtraSql := [] |} in
  let st := write ("-- Schema auto-generated from adl modules: "
                   ++ String.concat ", " moduleNames ++ newline) st in
  let st := write ("--" ++ newline) st in
  let st := write ("-- column comments show original ADL types" ++ newline) st in
  st <- tablesLoop (adl_resolver loadedAdl) fuel dbProfile dbTables st ;;
  let st := if (0 <? List.length (constraints st))%nat then write newline st else st in
  let st := writeConstraints (constraints st) st in
  let st := if (0 <? List.length (allExtraSql st))%nat then write newline st else st in
  let st := writeExtraSql (arrayKeys (allExtraSql st)) st in
  Ok (written st).

End Generator.

(** * Sample declarations

    Concrete inputs on which the generator is run below.  The two
    imported functions are instantiated with stand-ins that agree with
    them on the plain ASCII identifiers used here. *)

Module Sample.

Definition isUpper (c : ascii) : bool :=
  (65 <=? nat_of_ascii c)%nat && (nat_of_ascii c <=? 90)%nat.

Definition isLowerOrDigit (c : ascii) : bool :=
  ((97 <=? nat_of_ascii c)%nat && (nat_of_ascii c <=? 122)%nat)
  || ((48 <=? nat_of_ascii c)%nat && (nat_of_ascii c <=? 57)%nat).

Fixpoint snakeFrom (afterLower : bool) (s : string) : string :=
  match s with
  | EmptyString => EmptyString
  | String c s' =>
      if isUpper c then
        (if afterLower then "_" else "")
        ++ String (ascii_of_nat (nat_of_ascii c + 32)) (snakeFrom false s')
      else String c (snakeFrom (isLowerOrDigit c) s')
  end.

(** Lower case, with an underscore at every step from a lower-case
    letter or digit to an upper-case letter. *)
Definition snakeCase (s : string) : string := snakeFrom false s.

(** The unscoped name of the head, followed by the parameters in angle
    brackets. *)
Fixpoint typeExprToStringUnscoped (te : TypeExpr) : string :=
  match te with
  | mkTypeExpr r ps =>
      let head := match r with
                  | primitive p => p
                  | typeParam p => p
                  | reference sn => name sn
                  end in
      match ps with
      | [] => head
      | _ => head ++ "<" ++ String.concat ", " (map typeExprToStringUnscoped ps) ++ ">"
      end
  end.

Definition prim (p : string) : TypeExpr := mkTypeExpr (primitive p) [].
Definition ref (m n : string) (ps : list TypeExpr) : TypeExpr :=
  mkTypeExpr (reference (scopedName m n)) ps.
Definition nullable (te : TypeExpr) : TypeExpr := mkTypeExpr (primitive "Nullable") [te].
Definition maybe (te : TypeExpr) : TypeExpr := mkTypeExpr (reference MAYBE) [te].
Definition dbKey (te : TypeExpr) : TypeExpr := mkTypeExpr (reference DB_KEY) [te].

Definition field (n : string) (te : TypeExpr) : Field :=
  {| field_name := n; field_typeExpr := te; field_annotations := [] |}.

Definition noProps : DbTableProps :=
  {| tableName := None; withIdPrimaryKey := None; withPrimaryKey := None;
     indexes := None; uniquenessConstraints := None; extraSql := None |}.

Definition tableDecl (n : string) (props : DbTableProps) (fields : list Field) : Decl :=
  {| decl_name := n;
     type__ := struct_ {| struct_typeParams := []; struct_fields := fields |};
     decl_annotations := [(DB_TABLE, JObject props)] |}.

Definition plainDecl (n : string) (t : DeclType) : Decl :=
  {| decl_name := n; type__ := t; decl_annotations := [] |}.

Definition sysTypes : Module :=
  {| module_name := "sys.types";
     decls := [ plainDecl "Maybe"
                  (union_ {| union_typeParams := ["T"];
                             union_fields := [ field "nothing" (prim "Void");
                                               field "just" (mkTypeExpr (typeParam "T") []) ] |}) ] |}.

Definition commonDb : Module :=
  {| module_name := "common.db";
     decls := [ plainDecl "DbKey"
                  (newtype_ {| newtype_typeParams := ["T"];
                               newtype_typeExpr := prim "String" |}) ] |}.

Definition instantDecl : Decl :=
  plainDecl "Instant" (newtype_ {| newtype_typeParams := []; newtype_typeExpr := prim "Int64" |}).

Definition common : Module :=
  {| module_name := "common";
     decls := [ instantDecl;
                plainDecl "LocalDate"
                  (newtype_ {| newtype_typeParams := []; newtype_typeExpr := prim "String" |});
                plainDecl "LocalDateTime"
                  (newtype_ {| newtype_typeParams := []; newtype_typeExpr := prim "String" |}) ] |}.

(** An application module: two tables, an alias chain, an enumeration
    and a struct that is not a table. *)
Definition app : Module :=
  {| module_name := "app";
     decls :=
       [ tableDecl "Person"
           {| tableName := None; withIdPrimaryKey := Some true; withPrimaryKey := None;
              indexes := None; uniquenessConstraints := None;
              extraSql := Some ["grant select on person to reporting;"] |}
           [ field "email" (ref "app" "Email" []);
             field "nickname" (maybe (prim "String"));
             field "employer" (nullable (dbKey (ref "app" "Company" [])));
             field "joined" (ref "common" "Instant" []);
             field "role" (ref "app" "Role" []) ];
         tableDecl "Company"
           {| tableName := None; withIdPrimaryKey := Some true; withPrimaryKey := None;
              indexes := Some [["name"]]; uniquenessConstraints := Some [["name"]];
              extraSql := None |}
           [ field "name" (prim "String");
             field "address" (ref "app" "Address" []) ];
         plainDecl "Email"
           (type_ {| type_typeParams := []; type_typeExpr := ref "app" "Text" [prim "Void"] |});
         plainDecl "Text"
           (newtype_ {| newtype_typeParams := ["T"]; newtype_typeExpr := prim "String" |});
         plainDecl "Role"
           (union_ {| union_typeParams := [];
                      union_fields := [ field "admin" (prim "Void");
                                        field "member" (prim "Void") ] |});
         plainDecl "Address"
           (struct_ {| struct_typeParams := [];
                       struct_fields := [ field "street" (prim "String") ] |}) ] |}.

Definition modules : list Module := [sysTypes; commonDb; common; app].

Definition loadedAdl : LoadedAdl :=
  {| adl_modules := modules; adl_resolver := declResolver modules |}.

(** A second module that declares a table of the name app already
    uses. *)
Definition crm : Module :=
  {| module_name := "crm";
     decls := [ tableDecl "Person" noProps [ field "fullName" (prim "String") ] ] |}.

Definition loadedWithCrm : LoadedAdl :=
  {| adl_modules := modules ++ [crm]; adl_resolver := declResolver (modules ++ [crm]) |}.

(** The files generated for the two inputs with the default profile. *)
Definition schema : list string :=
  Eval vm_compute in
    match generateSqlSchema snakeCase typeExprToStringUnscoped 10 loadedAdl postgresDbProfile
    with
    | Ok out => out
    | _ => []
    end.

Definition schemaWithCrm : list string :=
  Eval vm_compute in
    match generateSqlSchema snakeCase typeExprToStringUnscoped 10 loadedWithCrm
                            postgresDbProfile
    with
    | Ok out => out
    | _ => []
    end.

(** Two aliases of the module common that stand for each other, one of
    them under the name of the instant-in-time type. *)
Definition temporalLoop : Module :=
  {| module_name := "common";
     decls := [ plainDecl "Instant"
                  (type_ {| type_typeParams := []; type_typeExpr := ref "common" "Stamp" [] |});
                plainDecl "Stamp"
                  (type_ {| type_typeParams := []; type_typeExpr := ref "common" "Instant" [] |}) ] |}.

(** A recursive type: the newtype occurs under a primitive of its own
    body. *)
Definition recursive : Module :=
  {| module_name := "tree";
     decls := [ plainDecl "Tree"
                  (newtype_ {| newtype_typeParams := [];
                               newtype_typeExpr :=
                                 mkTypeExpr (primitive "Vector") [ref "tree" "Tree" []] |}) ] |}.

(** A rank under which the aliases and newtypes of [modules] and of
    [recursive] only expand to declarations of smaller rank. *)
Definition rank (sn : ScopedName) : nat :=
  if name sn =? "Email" then 1 else 0.

End Sample.

(** * Vocabulary of the statements *)

(** The three profiles of the source with their [switch] tables and the
    value returned after the [switch]. *)
Definition shippedProfiles : list (DbProfile * list (string * string) * string) :=
  [ (postgresDbProfile, postgresPrimTable, "json");
    (postgres2DbProfile, postgres2PrimTable, "jsonb");
    (mssql2DbProfile, mssql2PrimTable, "nvarchar(max)") ].

(** The fixed spellings of the well-known temporal declarations. *)
Definition temporalSpellings : list (ScopedName * string) :=
  [ (INSTANT, "timestamp"); (LOCAL_DATE, "date"); (LOCAL_DATETIME, "timestamp") ].

(** [s] ends with [suffix]. *)
Definition endsWith (s suffix : string) : bool :=
  (String.length suffix <=? String.length s)%nat
  && (substring (String.length s - String.length suffix) (String.length suffix) s =? suffix).

(** A column for a nullable wrapper: the base type of the first type
    parameter, unqualified, and the foreign-key target of that
    parameter. *)
Definition nullableColumn (snakeCase : string -> string) (resolver : DeclResolver)
  (fuel : nat) (te : TypeExpr) (dbProfile : DbProfile) (c : ColumnType) : Prop :=
  exists inner rest,
    parameters te = inner :: rest /\
    getColumnType1 resolver fuel inner dbProfile = Ok (sqltype c) /\
    getForeignKeyRef snakeCase resolver inner = Ok (fkey c).

(** A column for any other type expression: its base type followed by
    the qualifier, and its own foreign-key target. *)
Definition notNullColumn (snakeCase : string -> string) (resolver : DeclResolver)
  (fuel : nat) (te : TypeExpr) (dbProfile : DbProfile) (c : ColumnType) : Prop :=
  exists base,
    getColumnType1 resolver fuel te dbProfile = Ok base /\
    sqltype c = base ++ " not null" /\
    getForeignKeyRef snakeCase resolver te = Ok (fkey c).

(** The declaration carries the table-mapping annotation. *)
Definition carriesTableAnnotation (sdecl : ScopedDecl) : Prop :=
  getAnnotation (decl_annotations (decl sdecl)) DB_TABLE <> None.

(** The foreign-key wrapper as the specification words it: a reference
    to the database-key declaration whose single type parameter is a
    reference to a declaration that carries the table-mapping
    annotation. *)
Definition foreignKeyWrapperSpec (resolver : DeclResolver) (te : TypeExpr) : Prop :=
  exists sn0 ds0 sdecl,
    decodeTypeExpr te = Ok (DReference DB_KEY [DReference sn0 ds0]) /\
    resolver sn0 = Some sdecl /\
    carriesTableAnnotation sdecl.

(** The scoped names of a type expression that an expansion can bring
    to the head: the name it refers to and, under a reference, those of
    its type parameters.  Nothing under a primitive or a type parameter
    is ever expanded. *)
Fixpoint expansionRefs (te : TypeExpr) : list ScopedName :=
  match te with
  | mkTypeExpr (reference sn) ps => sn :: flat_map expansionRefs ps
  | mkTypeExpr _ _ => []
  end.

(** The type expression a type alias or a newtype stands for. *)
Definition underlyingTypeExpr (sdecl : ScopedDecl) : option TypeExpr :=
  match type__ (decl sdecl) with
  | type_ td => Some (type_typeExpr td)
  | newtype_ nt => Some (newtype_typeExpr nt)
  | _ => None
  end.

(** A declaration graph is acyclic when its declarations can be ranked
    so that the type expression of every alias and newtype can only
    bring declarations of smaller rank to the head.  A type that recurs
    under a primitive, as in [newtype Tree = Vector<Tree>], is
    acyclic. *)
Definition acyclic (resolver : DeclResolver) (rank : ScopedName -> nat) : Prop :=
  forall sn sdecl body sn',
    resolver sn = Some sdecl ->
    underlyingTypeExpr sdecl = Some body ->
    In sn' (expansionRefs body) ->
    rank sn' < rank sn.

(** The same for the declarations of loaded modules, as a check. *)
Definition acyclicDecl (rank : ScopedName -> nat) (sdecl : ScopedDecl) : bool :=
  match underlyingTypeExpr sdecl with
  | Some body =>
      forallb (fun sn' => (rank sn' <? rank (scopedName (sd_moduleName sdecl)
                                                        (decl_name (decl sdecl))))%nat)
              (expansionRefs body)
  | None => true
  end.

Definition acyclicModules (modules : list Module) (rank : ScopedName -> nat) : bool :=
  forallb (acyclicDecl rank) (forEachDecl modules).

(** The base-type reduction of [te] comes to an end: from some amount
    of fuel on it yields one and the same value or exception. *)
Definition terminates (resolver : DeclResolver) (te : TypeExpr) (dbProfile : DbProfile)
  : Prop :=
  exists fuel r,
    r <> OutOfFuel /\
    forall fuel', fuel <= fuel' -> getColumnType1 resolver fuel' te dbProfile = r.

(** Some amount of fuel is enough for [te]. *)
Definition halts (resolver : DeclResolver) (dbProfile : DbProfile) (te : TypeExpr) : Prop :=
  exists fuel, getColumnType1 resolver fuel te dbProfile <> OutOfFuel.

(** Some amount of fuel is enough for [te] and, when it is a
    reference, for its type parameters and what is inside them. *)
Unset Elimination Schemes.
Inductive haltsWithin (resolver : DeclResolver) (dbProfile : DbProfile) : TypeExpr -> Prop :=
| haltsWithin_reference (sn : ScopedName) (ps : list TypeExpr) :
    halts resolver dbProfile (mkTypeExpr (reference sn) ps) ->
    Forall (haltsWithin resolver dbProfile) ps ->
    haltsWithin resolver dbProfile (mkTypeExpr (reference sn) ps)
| haltsWithin_primitive (p : string) (ps : list TypeExpr) :
    haltsWithin resolver dbProfile (mkTypeExpr (primitive p) ps)
| haltsWithin_typeParam (p : string) (ps : list TypeExpr) :
    haltsWithin resolver dbProfile (mkTypeExpr (typeParam p) ps).
Set Elimination Schemes.

(** ** The layout of the generated file *)

Section Layout.

Variable snakeCase : string -> string.
Variable typeExprToStringUnscoped : TypeExpr -> string.
Variable resolver : DeclResolver.
Variable fuel : nat.
Variable dbProfile : DbProfile.

(** The fields of a table with the column each one maps to. *)
Fixpoint mappedFields (fields : list Field) : result (list (Field * ColumnType)) :=
  match fields with
  | [] => Ok []
  | f :: rest =>
      c <- getColumnType snakeCase resolver fuel (field_typeExpr f) dbProfile ;;
      cs <- mappedFields rest ;;
      Ok ((f, c) :: cs)
  end.

(** The tables with their mapped fields. *)
Fixpoint mappedTables (dbTables : list DbTable)
  : result (list (DbTable * list (Field * ColumnType))) :=
  match dbTables with
  | [] => Ok []
  | t :: rest =>
      cols <- mappedFields (struct_fields (dbt_struct t)) ;;
      mts <- mappedTables rest ;;
      Ok ((t, cols) :: mts)
  end.

Definition columnLine (fc : Field * ColumnType) : Line :=
  {| code := getColumnName snakeCase (fst fc) ++ " " ++ sqltype (snd fc);
     comment := Some (tweakTypeComment (typeExprToStringUnscoped (field_typeExpr (fst fc)))) |}.

Definition idLines (t : DbTable) : list Line :=
  if annFlag (dbt_ann t) withIdPrimaryKey
  then [ {| code := "id " ++ idColumnType dbProfile ++ " not null"; comment := None |} ]
  else [].

Definition primaryKeyLines (t : DbTable) : list Line :=
  if annFlag (dbt_ann t) withIdPrimaryKey
  then [ {| code := "primary key(id)"; comment := None |} ]
  else if (0 <? List.length (annProp (dbt_ann t) withPrimaryKey []))%nat
  then [ {| code := "primary key("
                    ++ String.concat "," (map (findColName snakeCase t)
                                              (annProp (dbt_ann t) withPrimaryKey []))
                    ++ ")";
            comment := None |} ]
  else [].

Fixpoint renderLines (lines : list Line) : list string :=
  match lines with
  | [] => []
  | l :: rest => renderLine (match rest with [] => true | _ => false end) l :: renderLines rest
  end.

Definition createTableStatement (t : DbTable) : string :=
  "create table " ++ dbt_name t ++ "(" ++ newline.

(** What is written for one table. *)
Definition tableBlock (mt : DbTable * list (Field * ColumnType)) : list string :=
  ([newline; createTableStatement (fst mt)]
   ++ renderLines (idLines (fst mt) ++ map columnLine (snd mt) ++ primaryKeyLines (fst mt))
   ++ [(");" ++ newline)%string])%list.

(** The statements one table adds to [constraints]. *)
Definition foreignKeyStatements (mt : DbTable * list (Field * ColumnType)) : list string :=
  flat_map (fun fc => match fkey (snd fc) with
                      | Some fk => [fkeyConstraint (fst mt) (getColumnName snakeCase (fst fc)) fk]
                      | None => []
                      end)
           (snd mt).

Fixpoint indexStatementsFrom (t : DbTable) (i : nat) (groups : list (list string))
  : list string :=
  match groups with
  | [] => []
  | group :: rest =>
      indexConstraint t i (map (findColName snakeCase t) group)
      :: indexStatementsFrom t (S i) rest
  end.

Definition indexStatements (t : DbTable) : list string :=
  indexStatementsFrom t 0 (annProp (dbt_ann t) indexes []).

Fixpoint uniquenessStatementsFrom (t : DbTable) (i : nat) (groups : list (list string))
  : list string :=
  match groups with
  | [] => []
  | group :: rest =>
      uniquenessConstraint t i (map (findColName snakeCase t) group)
      :: uniquenessStatementsFrom t (S i) rest
  end.

Definition uniquenessStatements (t : DbTable) : list string :=
  uniquenessStatementsFrom t 0 (annProp (dbt_ann t) uniquenessConstraints []).

Definition tableConstraints (mt : DbTable * list (Field * ColumnType)) : list string :=
  (foreignKeyStatements mt ++ indexStatements (fst mt) ++ uniquenessStatements (fst mt))%list.

Definition tableExtraSql (t : DbTable) : list string :=
  annProp (dbt_ann t) extraSql [].

Definition schemaHeader (dbTables : list DbTable) : list string :=
  [ "-- Schema auto-generated from adl modules: "
    ++ String.concat ", "
         (setKeys [] (map (fun dbt => sd_moduleName (dbt_scopedDecl dbt)) dbTables))
    ++ newline;
    "--" ++ newline;
    "-- column comments show original ADL types" ++ newline ].

(** A blank line, if there is anything to follow. *)
Definition separator {A : Type} (l : list A) : list string :=
  if (0 <? List.length l)%nat then [newline] else [].

Definition constraintSection (cs : list string) : list string :=
  (separator cs ++ map (fun c => (c ++ newline)%string) cs)%list.

(** What the last loop writes: one line per element of [allExtraSql],
    holding what the loop variable is bound to. *)
Definition extraSqlSection (allExtra : list string) : list string :=
  (separator allExtra ++ map (fun sql => (sql ++ newline)%string) (arrayKeys allExtra))%list.

End Layout.

(** A statement that creates a table, an index, a foreign key. *)
Definition isCreateTable (chunk : string) : bool := String.prefix "create table " chunk.

Definition isCreateIndex (chunk : string) : bool := String.prefix "create index " chunk.

Fixpoint contains (pattern s : string) : bool :=
  String.prefix pattern s
  || match s with
     | EmptyString => false
     | String _ s' => contains pattern s'
     end.

Definition isForeignKey (chunk : string) : bool :=
  String.prefix "alter table " chunk && contains " foreign key (" chunk.

(** The order of C4 between the foreign keys and the indexes: every
    foreign-key statement is written before every index statement. *)
Definition foreignKeysBeforeIndexes (out : list string) : Prop :=
  forall i j idxStmt fkStmt,
    nth_error out i = Some idxStmt -> isCreateIndex idxStmt = true ->
    nth_error out j = Some fkStmt -> isForeignKey fkStmt = true ->
    j < i.

Definition ascending (names : list string) : Prop :=
  StronglySorted (fun a b => String.leb a b = true) names.

Definition strictlyAscending (names : list string) : Prop :=
  StronglySorted (fun a b => String.ltb a b = true) names.

Definition tablesAscending (l : list DbTable) : Prop :=
  StronglySorted (fun a b => String.leb (dbt_name a) (dbt_name b) = true) l.

Definition isStructDecl (sdecl : ScopedDecl) : bool :=
  match type__ (decl sdecl) with
  | struct_ _ => true
  | _ => false
  end.

(** * The command line and further vocabulary *)

(** The options of the [sql] command as they reach its action: an
    option that was not given is [None], a flag that was not given is
    [false]. *)
Record SqlOptions : Type := {
  opt_searchdir : list string;
  opt_outfile : string;
  opt_outputdir : option string;
  opt_postgres : bool;
  opt_postgresV2 : bool;
  opt_mssql : bool
}.

Record Params : Type := {
  params_adlFiles : list string;
  params_adlSearchPath : list string;
  params_outfile : string;
  params_dbProfile : DbProfile
}.

(** The action of the [sql] command, up to the call of
    [generateSqlSchema]: the parameters it is called with.  [if
    (cmd['outputdir'])] holds for a string that is given and not
    empty. *)
Definition sqlCommandParams (adlFiles : list string) (cmd : SqlOptions) : Params :=
  let outfile :=
    match opt_outputdir cmd with
    | Some dir => if dir =? "" then opt_outfile cmd else dir ++ "/create.sql"
    | None => opt_outfile cmd
    end in
  let dbProfile := postgresDbProfile in
  let dbProfile := if opt_postgresV2 cmd then postgres2DbProfile else dbProfile in
  let dbProfile := if opt_mssql cmd then mssql2DbProfile else dbProfile in
  {| params_adlFiles := adlFiles;
     params_adlSearchPath := opt_searchdir cmd;
     params_outfile := outfile;
     params_dbProfile := dbProfile |}.

(** The name is one of the three the mapper compares a reference with
    before anything else. *)
Definition isTemporalName (sn : ScopedName) : bool :=
  scopedNamesEqual sn INSTANT || scopedNamesEqual sn LOCAL_DATE
  || scopedNamesEqual sn LOCAL_DATETIME.

(** [te] reaches [te'] in [n] expansions of a type alias or newtype,
    none of them at a temporal name. *)
Inductive expandsTo (resolver : DeclResolver) : nat -> TypeExpr -> TypeExpr -> Prop :=
| expandsTo_here (te : TypeExpr) : expandsTo resolver 0 te te
| expandsTo_step (n : nat) (te te2 te3 : TypeExpr) (sn : ScopedName)
                 (ds : list DecodedTypeExpr) :
    decodeTypeExpr te = Ok (DReference sn ds) ->
    isTemporalName sn = false ->
    expandAliasOrNewType resolver te = Ok (Some te2) ->
    expandsTo resolver n te2 te3 ->
    expandsTo resolver (S n) te te3.

(** A struct declaration with a table annotation that is not [null]. *)
Definition isTableDecl (sdecl : ScopedDecl) : bool :=
  match type__ (decl sdecl) with
  | struct_ _ =>
      match getAnnotation (decl_annotations (decl sdecl)) DB_TABLE with
      | None | Some JNull => false
      | Some _ => true
      end
  | _ => false
  end.

(** The scoped name under which a declaration is resolved. *)
Definition scopedNameOf (sdecl : ScopedDecl) : ScopedName :=
  scopedName (sd_moduleName sdecl) (decl_name (decl sdecl)).

(** The tables of a given name, in list order. *)
Definition tablesNamed (n : string) (l : list DbTable) : list DbTable :=
  filter (fun t => dbt_name t =? n) l.

(** The tables collected from the sample modules. *)
Definition sampleTables : list DbTable :=
  Eval vm_compute in collectDbTables Sample.snakeCase Sample.modules.

(** A database key of the table. *)
Definition keyOf (t : DbTable) : TypeExpr :=
  mkTypeExpr (reference DB_KEY)
             [mkTypeExpr (reference (scopedNameOf (dbt_scopedDecl t))) []].

(** A string of decimal digits. *)
Definition isDigit (c : ascii) : bool :=
  (48 <=? nat_of_ascii c)%nat && (nat_of_ascii c <=? 57)%nat.

Fixpoint allDigits (s : string) : bool :=
  match s with
  | EmptyString => true
  | String c s' => isDigit c && allDigits s'
  end.

(** The string is some text followed by a line feed. *)
Definition isLine (chunk : string) : Prop := exists text, chunk = text ++ newline.

(** [s'] is [s] with its earliest occurrence of [pattern], if it has
    one, exchanged for [replacement]. *)
Definition firstOccurrenceReplaced (pattern replacement s s' : string) : Prop :=
  (contains pattern s = false /\ s' = s) \/
  (exists before after,
      s = before ++ pattern ++ after /\
      s' = before ++ replacement ++ after /\
      forall before' after',
        s = before' ++ pattern ++ after' -> String.length before <= String.length before').
(** * Properties of the mapper *)

Lemma scopedNamesEqual_eq (sn1 sn2 : ScopedName) :
  scopedNamesEqual sn1 sn2 = true <-> sn1 = sn2.
Proof.
  unfold scopedNamesEqual. destruct sn1 as [m1 n1], sn2 as [m2 n2]; simpl.
  rewrite andb_true_iff, !String.eqb_eq. split.
  - intros [-> ->]. reflexivity.
  - intros H. injection H as -> ->. split; reflexivity.
Qed.

Lemma scopedNamesEqual_refl (sn : ScopedName) : scopedNamesEqual sn sn = true.
Proof. apply scopedNamesEqual_eq. reflexivity. Qed.

Lemma switch_unmapped (subject : string) (cases : list (string * string)) (default : string) :
  ~ In subject (map fst cases) -> switch subject cases default = default.
Proof.
  induction cases as [|[label value] rest IH]; simpl; intros Hnot.
  - reflexivity.
  - destruct (String.eqb_spec subject label) as [->|Hne].
    + exfalso. apply Hnot. left. reflexivity.
    + apply IH. intros Hin. apply Hnot. right. exact Hin.
Qed.

Lemma switch_mapped_or_default (subject : string) (cases : list (string * string))
      (default : string) :
  In (switch subject cases default) (default :: map snd cases).
Proof.
  induction cases as [|[label value] rest IH]; simpl.
  - left. reflexivity.
  - destruct (subject =? label).
    + right. left. reflexivity.
    + destruct IH as [IH|IH]; [left; exact IH | right; right; exact IH].
Qed.

(** Decoding a primitive never yields a reference. *)
Lemma decode_primitive_kind (p : string) (ps : list TypeExpr) (dt : DecodedTypeExpr) :
  decodeTypeExpr (mkTypeExpr (primitive p) ps) = Ok dt ->
  kind dt = p /\ (forall sn ds, dt <> DReference sn ds).
Proof.
  simpl. destruct (String.eqb_spec p "Nullable") as [->|Hne].
  - destruct ps as [|p0 ps']; [discriminate|].
    destruct (decodeTypeExpr p0); simpl; try discriminate.
    intros [= <-]. split; [reflexivity | discriminate].
  - intros [= <-]. split; [reflexivity | discriminate].
Qed.

Lemma getColumnType1_primitive (resolver : DeclResolver) (fuel : nat) (p : string)
      (ps : list TypeExpr) (dt : DecodedTypeExpr) (dbProfile : DbProfile) :
  decodeTypeExpr (mkTypeExpr (primitive p) ps) = Ok dt ->
  getColumnType1 resolver (S fuel) (mkTypeExpr (primitive p) ps) dbProfile
  = Ok (primColumnType dbProfile p).
Proof.
  intros Hdec. destruct (decode_primitive_kind _ _ _ Hdec) as [Hk Hnr].
  cbn [getColumnType1]. rewrite Hdec. cbn [bind].
  destruct dt; try (rewrite <- Hk; reflexivity).
  exfalso. eapply Hnr. reflexivity.
Qed.

Lemma shippedProfiles_switch (prof : DbProfile) (tbl : list (string * string)) (dflt : string) :
  In (prof, tbl, dflt) shippedProfiles ->
  forall p, primColumnType prof p = switch p tbl dflt.
Proof.
  intros Hin p. simpl in Hin.
  destruct Hin as [H|[H|[H|[]]]]; injection H as <- <- <-; reflexivity.
Qed.

(** C7. A primitive kind that has no case in the selected profile's
    table maps to the profile's default opaque column type (json, jsonb
    or nvarchar(max)); the lookup is a total function, and the mapper
    applied to a primitive of such a kind returns that type rather than
    an error. *)
Theorem unmapped_primitive_degrades
        (prof : DbProfile) (tbl : list (string * string)) (dflt : string) (p : string) :
  In (prof, tbl, dflt) shippedProfiles ->
  ~ In p (map fst tbl) ->
  primColumnType prof p = dflt /\
  In dflt ["json"; "jsonb"; "nvarchar(max)"] /\
  forall (resolver : DeclResolver) (fuel : nat) (ps : list TypeExpr) (dt : DecodedTypeExpr),
    decodeTypeExpr (mkTypeExpr (primitive p) ps) = Ok dt ->
    getColumnType1 resolver (S fuel) (mkTypeExpr (primitive p) ps) prof = Ok dflt.
Proof.
  intros Hin Hnot.
  assert (Hp : primColumnType prof p = dflt).
  { rewrite (shippedProfiles_switch _ _ _ Hin). apply switch_unmapped. exact Hnot. }
  split; [exact Hp|]. split.
  - simpl in Hin. destruct Hin as [H|[H|[H|[]]]]; injection H as _ _ <-; simpl; auto.
  - intros resolver fuel ps dt Hdec.
    rewrite (getColumnType1_primitive resolver fuel _ _ _ prof Hdec), Hp. reflexivity.
Qed.

Lemma unmapped_primitive_degrades_witness :
  In (mssql2DbProfile, mssql2PrimTable, "nvarchar(max)") shippedProfiles /\
  ~ In "Json" (map fst mssql2PrimTable) /\
  primColumnType mssql2DbProfile "Json" = "nvarchar(max)".
Proof.
  assert (Hin : In (mssql2DbProfile, mssql2PrimTable, "nvarchar(max)") shippedProfiles).
  { simpl. right. right. left. reflexivity. }
  assert (Hnot : ~ In "Json" (map fst mssql2PrimTable)).
  { simpl. intuition discriminate. }
  split; [exact Hin|]. split; [exact Hnot|].
  exact (proj1 (unmapped_primitive_degrades _ _ _ "Json" Hin Hnot)).
Defined.

(** C9. A reference to common.Instant maps to timestamp, one to
    common.LocalDate to date and one to common.LocalDateTime to
    timestamp (the spelling of a timestamp without time zone), whatever
    the resolved declaration is and whatever the profile. *)
Theorem temporal_types_fixed_spelling
        (sn : ScopedName) (spelling : string) (resolver : DeclResolver)
        (sdecl : ScopedDecl) (ps : list TypeExpr) (dt : DecodedTypeExpr)
        (fuel : nat) (dbProfile : DbProfile) :
  In (sn, spelling) temporalSpellings ->
  resolver sn = Some sdecl ->
  decodeTypeExpr (mkTypeExpr (reference sn) ps) = Ok dt ->
  getColumnType1 resolver (S fuel) (mkTypeExpr (reference sn) ps) dbProfile = Ok spelling.
Proof.
  intros Hin Hres Hdec.
  cbn [getColumnType1]. rewrite Hdec. cbn [bind].
  assert (Hshape : exists ds, dt = DReference sn ds).
  { simpl in Hdec.
    match type of Hdec with bind ?r _ = _ => destruct r as [ds| |] end;
      simpl in Hdec; try discriminate.
    injection Hdec as <-. exists ds. reflexivity. }
  destruct Hshape as [ds ->].
  unfold resolve. rewrite Hres. cbn [fromOption bind].
  simpl in Hin. destruct Hin as [H|[H|[H|[]]]]; injection H as <- <-; reflexivity.
Qed.

Lemma temporal_types_fixed_spelling_witness :
  In (INSTANT, "timestamp") temporalSpellings /\
  declResolver Sample.modules INSTANT
  = Some {| sd_moduleName := "common"; decl := Sample.instantDecl |} /\
  decodeTypeExpr (mkTypeExpr (reference INSTANT) []) = Ok (DReference INSTANT []) /\
  getColumnType1 (declResolver Sample.modules) 1 (mkTypeExpr (reference INSTANT) [])
                 mssql2DbProfile = Ok "timestamp".
Proof.
  assert (Hin : In (INSTANT, "timestamp") temporalSpellings) by (left; reflexivity).
  split; [exact Hin|]. split; [reflexivity|]. split; [reflexivity|].
  exact (temporal_types_fixed_spelling INSTANT "timestamp" (declResolver Sample.modules)
           {| sd_moduleName := "common"; decl := Sample.instantDecl |} []
           (DReference INSTANT []) 0 mssql2DbProfile Hin eq_refl eq_refl).
Defined.

(** C2. The dedicated nullable wrapper around a type expression and the
    Maybe-style generic wrapper around the same expression map to the
    same column: same sqltype, same foreign-key target, and the same
    failure when there is one. *)
Theorem nullable_and_maybe_agree
        (snakeCase : string -> string) (resolver : DeclResolver) (fuel : nat)
        (inner : TypeExpr) (dbProfile : DbProfile) :
  getColumnType snakeCase resolver fuel (mkTypeExpr (primitive "Nullable") [inner]) dbProfile
  = getColumnType snakeCase resolver fuel (mkTypeExpr (reference MAYBE) [inner]) dbProfile.
Proof.
  unfold getColumnType. simpl decodeTypeExpr.
  destruct (decodeTypeExpr inner) as [d|e|]; reflexivity.
Qed.

(** ** Foreign-key detection *)

Lemma foreign_key_ref_iff_helper
      (snakeCase : string -> string) (resolver : DeclResolver) (te : TypeExpr)
      (sn0 : ScopedName) (ds0 rest : list DecodedTypeExpr) (sdecl : ScopedDecl) :
  decodeTypeExpr te = Ok (DReference DB_KEY (DReference sn0 ds0 :: rest)) ->
  resolver sn0 = Some sdecl ->
  getForeignKeyRef snakeCase resolver te
  = Ok (Some {| table := getTableName snakeCase sdecl; column := "id" |}).
Proof.
  intros Hdec Hres. unfold getForeignKeyRef.
  rewrite Hdec. cbn [bind]. rewrite scopedNamesEqual_refl.
  unfold resolve. rewrite Hres. reflexivity.
Qed.

(** C3, as the code has it.  [getForeignKeyRef] returns a target exactly
    for a reference to common.db.DbKey whose first type parameter is a
    reference to a declaration the resolver knows, whether or not that
    declaration carries the table annotation; the target is the derived
    table name of that declaration paired with the column "id". *)
Theorem foreign_key_ref_iff
        (snakeCase : string -> string) (resolver : DeclResolver) (te : TypeExpr)
        (fk : ForeignKey) :
  getForeignKeyRef snakeCase resolver te = Ok (Some fk) <->
  exists sn0 ds0 rest sdecl,
    decodeTypeExpr te = Ok (DReference DB_KEY (DReference sn0 ds0 :: rest)) /\
    resolver sn0 = Some sdecl /\
    fk = {| table := getTableName snakeCase sdecl; column := "id" |}.
Proof.
  unfold getForeignKeyRef. split.
  - destruct (decodeTypeExpr te) as [dtype|e|]; cbn [bind]; try discriminate.
    destruct dtype as [k|p|d|sn ds]; try discriminate.
    destruct (scopedNamesEqual sn DB_KEY) eqn:Hkey; try discriminate.
    apply scopedNamesEqual_eq in Hkey. subst sn.
    destruct ds as [|[k|p|d|sn0 ds0] rest]; try discriminate.
    unfold resolve. destruct (resolver sn0) as [sdecl|] eqn:Hres; cbn [fromOption bind];
      try discriminate.
    intros [= <-]. exists sn0, ds0, rest, sdecl. repeat split. exact Hres.
  - intros (sn0 & ds0 & rest & sdecl & Hdec & Hres & ->).
    exact (foreign_key_ref_iff_helper snakeCase resolver te sn0 ds0 rest sdecl Hdec Hres).
Qed.

(** C3, as stated, fails: a database key of a struct that carries no
    table annotation still gets a foreign-key target. *)
Lemma foreign_key_without_table_annotation :
  getForeignKeyRef Sample.snakeCase (declResolver Sample.modules)
                   (Sample.dbKey (Sample.ref "app" "Address" []))
  = Ok (Some {| table := "address"; column := "id" |}) /\
  ~ foreignKeyWrapperSpec (declResolver Sample.modules)
                          (Sample.dbKey (Sample.ref "app" "Address" [])).
Proof.
  split; [reflexivity|].
  intros (sn0 & ds0 & sdecl & Hdec & Hres & Hann).
  simpl in Hdec. injection Hdec as <- <-.
  vm_compute in Hres. injection Hres as <-.
  apply Hann. reflexivity.
Qed.

(** ** Nullability *)

Lemma length_append (s t : string) :
  String.length (s ++ t) = String.length s + String.length t.
Proof. induction s as [|c s IH]; simpl; [reflexivity | rewrite IH; reflexivity]. Qed.

Lemma substring_whole (s : string) : substring 0 (String.length s) s = s.
Proof. induction s as [|c s IH]; simpl; [reflexivity | rewrite IH; reflexivity]. Qed.

Lemma substring_skip (s t : string) (m : nat) :
  substring (String.length s) m (s ++ t) = substring 0 m t.
Proof. induction s as [|c s IH]; simpl; [reflexivity | exact IH]. Qed.

Lemma endsWith_append (s suffix : string) : endsWith (s ++ suffix) suffix = true.
Proof.
  unfold endsWith. rewrite length_append.
  replace (String.length s + String.length suffix - String.length suffix)
    with (String.length s) by lia.
  rewrite substring_skip, substring_whole, String.eqb_refl, andb_true_r.
  apply Nat.leb_le. lia.
Qed.

(** What the base-type reduction can return. *)
Lemma getColumnType1_range (resolver : DeclResolver) (fuel : nat) (dbProfile : DbProfile) :
  forall (te : TypeExpr) (s : string),
    getColumnType1 resolver fuel te dbProfile = Ok s ->
    s = "timestamp" \/ s = "date" \/ s = enumColumnType dbProfile
    \/ exists k, s = primColumnType dbProfile k.
Proof.
  induction fuel as [|fuel IH]; intros te s; cbn [getColumnType1]; [discriminate|].
  destruct (decodeTypeExpr te) as [dtype|e|]; cbn [bind]; try discriminate.
  destruct dtype as [k|p|d|sn ds];
    try (intros [= <-]; right; right; right; eexists; reflexivity).
  destruct (resolve resolver sn) as [sdecl|e|]; cbn [bind]; try discriminate.
  destruct (scopedNamesEqual sn INSTANT); [intros [= <-]; auto|].
  destruct (scopedNamesEqual sn LOCAL_DATE); [intros [= <-]; auto|].
  destruct (scopedNamesEqual sn LOCAL_DATETIME); [intros [= <-]; auto|].
  destruct (isEnumDecl sdecl); [intros [= <-]; auto|].
  destruct (expandAliasOrNewType resolver te) as [[te2|]|e|]; cbn [bind]; try discriminate.
  - apply IH.
  - intros [= <-]. right; right; right; eexists; reflexivity.
Qed.

Lemma shipped_base_types_unqualified
      (prof : DbProfile) (tbl : list (string * string)) (dflt : string) :
  In (prof, tbl, dflt) shippedProfiles ->
  forall (resolver : DeclResolver) (fuel : nat) (te : TypeExpr) (s : string),
    getColumnType1 resolver fuel te prof = Ok s ->
    endsWith s " not null" = false.
Proof.
  intros Hin resolver fuel te s Hs.
  assert (Hall : forallb (fun x => negb (endsWith x " not null"))
                         ("timestamp" :: "date" :: enumColumnType prof :: dflt :: map snd tbl)
                 = true).
  { simpl in Hin. destruct Hin as [H|[H|[H|[]]]]; injection H as <- <- <-; reflexivity. }
  rewrite forallb_forall in Hall.
  assert (Hmem : In s ("timestamp" :: "date" :: enumColumnType prof :: dflt :: map snd tbl)).
  { destruct (getColumnType1_range _ _ _ _ _ Hs) as [->|[->|[->|[k ->]]]].
    - left; reflexivity.
    - right; left; reflexivity.
    - right; right; left; reflexivity.
    - right; right; right. rewrite (shippedProfiles_switch _ _ _ Hin).
      apply switch_mapped_or_default. }
  specialize (Hall s Hmem). destruct (endsWith s " not null"); [discriminate | reflexivity].
Qed.

Lemma getColumnType_nullable
      (snakeCase : string -> string) (resolver : DeclResolver) (fuel : nat)
      (te : TypeExpr) (dbProfile : DbProfile) (dtype : DecodedTypeExpr) (c : ColumnType) :
  decodeTypeExpr te = Ok dtype -> isNullableWrapper dtype = true ->
  getColumnType snakeCase resolver fuel te dbProfile = Ok c <->
  nullableColumn snakeCase resolver fuel te dbProfile c.
Proof.
  intros Hdec Hnull. unfold getColumnType, nullableColumn, parameter0.
  rewrite Hdec. cbn [bind]. rewrite Hnull.
  destruct (parameters te) as [|inner rest]; cbn [nth_error fromOption bind].
  - split; [discriminate | intros (i & r & H & _); discriminate].
  - split.
    + destruct (getColumnType1 resolver fuel inner dbProfile) as [s|e|] eqn:Hs; cbn [bind];
        try discriminate.
      destruct (getForeignKeyRef snakeCase resolver inner) as [fk|e|] eqn:Hfk; cbn [bind];
        try discriminate.
      intros [= <-]. exists inner, rest. simpl. repeat split; assumption.
    + intros (i & r & [= <- <-] & Hs & Hfk). rewrite Hs, Hfk. cbn [bind].
      destruct c; reflexivity.
Qed.

Lemma getColumnType_not_null
      (snakeCase : string -> string) (resolver : DeclResolver) (fuel : nat)
      (te : TypeExpr) (dbProfile : DbProfile) (dtype : DecodedTypeExpr) (c : ColumnType) :
  decodeTypeExpr te = Ok dtype -> isNullableWrapper dtype = false ->
  getColumnType snakeCase resolver fuel te dbProfile = Ok c <->
  notNullColumn snakeCase resolver fuel te dbProfile c.
Proof.
  intros Hdec Hnull. unfold getColumnType, notNullColumn.
  rewrite Hdec. cbn [bind]. rewrite Hnull. split.
  - destruct (getColumnType1 resolver fuel te dbProfile) as [s|e|] eqn:Hs; cbn [bind];
      try discriminate.
    destruct (getForeignKeyRef snakeCase resolver te) as [fk|e|] eqn:Hfk; cbn [bind];
      try discriminate.
    intros [= <-]. exists s. simpl. repeat split; assumption.
  - intros (base & Hs & Hq & Hfk). rewrite Hs, Hfk. cbn [bind].
    destruct c as [q fk]; simpl in *. subst q. reflexivity.
Qed.



(** * Termination of the base-type reduction *)

Lemma TypeExpr_ind (P : TypeExpr -> Prop) :
  (forall r ps, Forall P ps -> P (mkTypeExpr r ps)) ->
  forall te, P te.
Proof.
  intros step. fix IH 1. intros [r ps]. apply step.
  induction ps as [|p ps IHps]; constructor; [apply IH | exact IHps].
Qed.

Lemma decodeTypeExpr_result (te : TypeExpr) : decodeTypeExpr te <> OutOfFuel.
Proof.
  induction te as [r ps IH] using TypeExpr_ind.
  destruct r as [p|p|sn]; cbn [decodeTypeExpr].
  - destruct (p =? "Nullable"); [|discriminate].
    destruct ps as [|p0 ps]; [discriminate|].
    inversion IH as [|? ? Hp0 _]; subst.
    destruct (decodeTypeExpr p0); cbn [bind]; [discriminate | discriminate | contradiction].
  - discriminate.
  - match goal with |- bind ?all _ <> _ => assert (Hall : all <> OutOfFuel) end.
    { induction IH as [|p ps Hp _ IHps]; [discriminate|].
      destruct (decodeTypeExpr p); cbn [bind]; [| discriminate | contradiction].
      match goal with |- bind ?all _ <> _ => destruct all end; cbn [bind];
        [discriminate | discriminate | contradiction]. }
    match goal with |- bind ?all _ <> _ => destruct all end; cbn [bind];
      [discriminate | discriminate | contradiction].
Qed.

Lemma resolve_result (resolver : DeclResolver) (sn : ScopedName) :
  resolve resolver sn <> OutOfFuel.
Proof. unfold resolve. destruct (resolver sn); discriminate. Qed.

(** An expansion is the substituted type expression of the alias or
    newtype the head refers to. *)
Lemma expandAliasOrNewType_some (resolver : DeclResolver) (sn : ScopedName)
      (ps : list TypeExpr) (te2 : TypeExpr) :
  expandAliasOrNewType resolver (mkTypeExpr (reference sn) ps) = Ok (Some te2) ->
  exists sdecl body tparams,
    resolver sn = Some sdecl /\
    underlyingTypeExpr sdecl = Some body /\
    te2 = substituteTypeBindings (createTypeBindings tparams ps) body.
Proof.
  unfold expandAliasOrNewType, expandTypeAlias, expandNewType, resolve, underlyingTypeExpr.
  cbn [typeRef parameters].
  destruct (resolver sn) as [sdecl|]; cbn [fromOption bind]; [|discriminate].
  destruct (type__ (decl sdecl)) as [s|u|td|nt] eqn:Hty; cbn [bind]; try discriminate.
  - intros [= <-]. exists sdecl, (type_typeExpr td), (type_typeParams td).
    rewrite Hty. repeat split.
  - intros [= <-]. exists sdecl, (newtype_typeExpr nt), (newtype_typeParams nt).
    rewrite Hty. repeat split.
Qed.

Lemma expandAliasOrNewType_result (resolver : DeclResolver) (te : TypeExpr) :
  expandAliasOrNewType resolver te <> OutOfFuel.
Proof.
  unfold expandAliasOrNewType, expandTypeAlias, expandNewType, resolve.
  destruct (typeRef te) as [p|p|sn]; cbn [bind]; try discriminate.
  destruct (resolver sn) as [sdecl|]; cbn [fromOption bind]; [|discriminate].
  destruct (type__ (decl sdecl)); cbn [bind]; discriminate.
Qed.

Section Reduction.

Variable resolver : DeclResolver.
Variable dbProfile : DbProfile.

Lemma getColumnType1_S (fuel : nat) (te : TypeExpr) :
  getColumnType1 resolver (S fuel) te dbProfile
  = (dtype <- decodeTypeExpr te ;;
     match dtype with
     | DReference refScopedName _ =>
         sdecl <- resolve resolver refScopedName ;;
         if scopedNamesEqual refScopedName INSTANT then Ok "timestamp"
         else if scopedNamesEqual refScopedName LOCAL_DATE then Ok "date"
         else if scopedNamesEqual refScopedName LOCAL_DATETIME then Ok "timestamp"
         else if isEnumDecl sdecl then Ok (enumColumnType dbProfile)
         else
           texpr2 <- expandAliasOrNewType resolver te ;;
           match texpr2 with
           | Some te2 => getColumnType1 resolver fuel te2 dbProfile
           | None => Ok (primColumnType dbProfile (kind dtype))
           end
     | _ => Ok (primColumnType dbProfile (kind dtype))
     end).
Proof. reflexivity. Qed.

(** One more unit of fuel does not change a result. *)
Lemma getColumnType1_more_fuel (fuel : nat) :
  forall (te : TypeExpr),
    getColumnType1 resolver fuel te dbProfile <> OutOfFuel ->
    getColumnType1 resolver (S fuel) te dbProfile = getColumnType1 resolver fuel te dbProfile.
Proof.
  induction fuel as [|fuel IH]; intros te Hne.
  - exfalso. apply Hne. reflexivity.
  - rewrite (getColumnType1_S (S fuel)). rewrite (getColumnType1_S fuel) in Hne |- *.
    destruct (decodeTypeExpr te) as [dtype|e|]; cbn [bind] in *; try reflexivity.
    destruct dtype as [k|p|d|sn ds]; try reflexivity.
    destruct (resolve resolver sn) as [sdecl|e|]; cbn [bind] in *; try reflexivity.
    destruct (scopedNamesEqual sn INSTANT); [reflexivity|].
    destruct (scopedNamesEqual sn LOCAL_DATE); [reflexivity|].
    destruct (scopedNamesEqual sn LOCAL_DATETIME); [reflexivity|].
    destruct (isEnumDecl sdecl); [reflexivity|].
    destruct (expandAliasOrNewType resolver te) as [[te2|]|e|]; cbn [bind] in *;
      try reflexivity.
    apply IH. exact Hne.
Qed.

Lemma getColumnType1_fuel_le (fuel fuel' : nat) (te : TypeExpr) :
  fuel <= fuel' ->
  getColumnType1 resolver fuel te dbProfile <> OutOfFuel ->
  getColumnType1 resolver fuel' te dbProfile = getColumnType1 resolver fuel te dbProfile.
Proof.
  intros Hle Hne. induction Hle as [|fuel' _ IH]; [reflexivity|].
  rewrite getColumnType1_more_fuel; [exact IH | rewrite IH; exact Hne].
Qed.

Lemma halts_terminates (te : TypeExpr) :
  halts resolver dbProfile te -> terminates resolver te dbProfile.
Proof.
  intros [fuel Hne]. exists fuel, (getColumnType1 resolver fuel te dbProfile).
  split; [exact Hne|]. intros fuel' Hle. apply getColumnType1_fuel_le; assumption.
Qed.

Lemma halts_primitive (p : string) (ps : list TypeExpr) :
  halts resolver dbProfile (mkTypeExpr (primitive p) ps).
Proof.
  exists 1. cbn [getColumnType1].
  destruct (decodeTypeExpr (mkTypeExpr (primitive p) ps)) as [dtype|e|] eqn:Hdec;
    cbn [bind]; [| discriminate | exfalso; exact (decodeTypeExpr_result _ Hdec)].
  destruct (decode_primitive_kind _ _ _ Hdec) as [_ Hnr].
  destruct dtype; try discriminate. exfalso. eapply Hnr. reflexivity.
Qed.

Lemma halts_typeParam (p : string) (ps : list TypeExpr) :
  halts resolver dbProfile (mkTypeExpr (typeParam p) ps).
Proof. exists 1. simpl. discriminate. Qed.

(** A reference halts as soon as its expansion, if it has one, does. *)
Lemma halts_reference (sn : ScopedName) (ps : list TypeExpr) :
  (forall te2,
      expandAliasOrNewType resolver (mkTypeExpr (reference sn) ps) = Ok (Some te2) ->
      halts resolver dbProfile te2) ->
  halts resolver dbProfile (mkTypeExpr (reference sn) ps).
Proof.
  intros Hexp. set (te := mkTypeExpr (reference sn) ps) in *.
  assert (Hone : forall fuel,
             getColumnType1 resolver (S fuel) te dbProfile <> OutOfFuel \/
             exists te2, expandAliasOrNewType resolver te = Ok (Some te2) /\
                         getColumnType1 resolver (S fuel) te dbProfile
                         = getColumnType1 resolver fuel te2 dbProfile).
  { intros fuel. cbn [getColumnType1].
    destruct (decodeTypeExpr te) as [dtype|e|] eqn:Hdec; cbn [bind];
      [| left; discriminate | exfalso; exact (decodeTypeExpr_result _ Hdec)].
    destruct dtype as [k|p|d|rsn ds]; try (left; discriminate).
    destruct (resolve resolver rsn) as [sdecl|e|] eqn:Hres; cbn [bind];
      [| left; discriminate | exfalso; exact (resolve_result _ _ Hres)].
    destruct (scopedNamesEqual rsn INSTANT); [left; discriminate|].
    destruct (scopedNamesEqual rsn LOCAL_DATE); [left; discriminate|].
    destruct (scopedNamesEqual rsn LOCAL_DATETIME); [left; discriminate|].
    destruct (isEnumDecl sdecl); [left; discriminate|].
    destruct (expandAliasOrNewType resolver te) as [[te2|]|e|] eqn:Hx; cbn [bind];
      [| left; discriminate | left; discriminate
       | exfalso; exact (expandAliasOrNewType_result _ _ Hx)].
    right. exists te2. split; reflexivity. }
  destruct (Hone 0) as [Hne|(te2 & Hx & _)].
  - exists 1. exact Hne.
  - destruct (Hexp te2 Hx) as [fuel Hfuel].
    exists (S fuel). destruct (Hone fuel) as [Hne|(te2' & Hx' & Heq)]; [exact Hne|].
    rewrite Hx in Hx'. injection Hx' as <-. rewrite Heq. exact Hfuel.
Qed.

Lemma haltsWithin_halts (te : TypeExpr) :
  haltsWithin resolver dbProfile te -> halts resolver dbProfile te.
Proof.
  intros H. destruct H as [sn ps Hh _|p ps|p ps];
    [exact Hh | apply halts_primitive | apply halts_typeParam].
Qed.

Lemma lookupBinding_In (tparams : list string) (actuals : list TypeExpr)
      (n : string) (e : TypeExpr) :
  lookupBinding (createTypeBindings tparams actuals) n = Some e -> In e actuals.
Proof.
  revert actuals. induction tparams as [|m tparams IH]; intros [|a actuals]; simpl;
    try discriminate.
  destruct (m =? n).
  - intros [= <-]. left. reflexivity.
  - intros H. right. exact (IH _ H).
Qed.

Variable rank : ScopedName -> nat.
Hypothesis Hacyclic : acyclic resolver rank.

(** Substituting halting type expressions in a type expression whose
    references halt under any halting parameters gives a halting type
    expression. *)
Lemma substitute_haltsWithin (n : nat) :
  (forall sn ps, rank sn < n -> Forall (haltsWithin resolver dbProfile) ps ->
                 halts resolver dbProfile (mkTypeExpr (reference sn) ps)) ->
  forall (bindings : list (string * TypeExpr)),
    (forall x e, lookupBinding bindings x = Some e -> haltsWithin resolver dbProfile e) ->
    forall body,
      (forall sn, In sn (expansionRefs body) -> rank sn < n) ->
      haltsWithin resolver dbProfile (substituteTypeBindings bindings body).
Proof.
  intros Href bindings Hbound body.
  induction body as [r ps IH] using TypeExpr_ind. intros Hrefs.
  cbn [substituteTypeBindings]. destruct r as [p|x|sn].
  - apply haltsWithin_primitive.
  - destruct (lookupBinding bindings x) as [bound|] eqn:Hx.
    + exact (Hbound x bound Hx).
    + apply haltsWithin_typeParam.
  - assert (Hps : Forall (haltsWithin resolver dbProfile)
                         (map (substituteTypeBindings bindings) ps)).
    { apply Forall_forall. intros e He. apply in_map_iff in He.
      destruct He as (p & <- & Hp). rewrite Forall_forall in IH.
      apply (IH p Hp). intros sn' Hsn. apply Hrefs.
      cbn [expansionRefs]. right. apply in_flat_map. exists p. split; assumption. }
    apply haltsWithin_reference; [|exact Hps]. apply Href; [|exact Hps].
    apply Hrefs. cbn [expansionRefs]. left. reflexivity.
Qed.

Lemma reference_halts (n : nat) :
  forall sn ps, rank sn < n -> Forall (haltsWithin resolver dbProfile) ps ->
                halts resolver dbProfile (mkTypeExpr (reference sn) ps).
Proof.
  induction n as [|n IHn]; intros sn ps Hrank Hps; [lia|].
  apply halts_reference. intros te2 Hx.
  destruct (expandAliasOrNewType_some _ _ _ _ Hx) as (sdecl & body & tparams & Hres & Hbody & ->).
  apply haltsWithin_halts. apply (substitute_haltsWithin n IHn).
  - intros x e Hlook. apply lookupBinding_In in Hlook.
    rewrite Forall_forall in Hps. exact (Hps e Hlook).
  - intros sn' Hin. specialize (Hacyclic sn sdecl body sn' Hres Hbody Hin). lia.
Qed.

Lemma every_typeExpr_haltsWithin (te : TypeExpr) : haltsWithin resolver dbProfile te.
Proof.
  induction te as [r ps IH] using TypeExpr_ind.
  destruct r as [p|x|sn].
  - apply haltsWithin_primitive.
  - apply haltsWithin_typeParam.
  - apply haltsWithin_reference; [|exact IH].
    apply (reference_halts (S (rank sn))); [lia | exact IH].
Qed.

End Reduction.

Lemma acyclicModules_acyclic (modules : list Module) (rank : ScopedName -> nat) :
  acyclicModules modules rank = true -> acyclic (declResolver modules) rank.
Proof.
  unfold acyclicModules, acyclic, declResolver. intros Hall sn sdecl body sn' Hres Hbody Hin.
  apply find_some in Hres. destruct Hres as [Hmem Hname].
  apply scopedNamesEqual_eq in Hname. subst sn.
  rewrite forallb_forall in Hall. specialize (Hall sdecl Hmem).
  unfold acyclicDecl in Hall. rewrite Hbody in Hall.
  rewrite forallb_forall in Hall. apply Nat.ltb_lt. exact (Hall sn' Hin).
Qed.

Lemma decode_reference_name (sn sn' : ScopedName) (ps : list TypeExpr)
      (ds : list DecodedTypeExpr) :
  decodeTypeExpr (mkTypeExpr (reference sn') ps) = Ok (DReference sn ds) -> sn = sn'.
Proof.
  simpl. match goal with |- bind ?r _ = _ -> _ => destruct r end; cbn [bind];
    try discriminate.
  intros [= <- _]. reflexivity.
Qed.

(** The reduction follows the expansions, whatever the graph. *)
Lemma reduction_follows_expansions (resolver : DeclResolver) (dbProfile : DbProfile)
      (n : nat) (te te' : TypeExpr) :
  expandsTo resolver n te te' ->
  forall fuel, getColumnType1 resolver (n + fuel) te dbProfile
               = getColumnType1 resolver fuel te' dbProfile.
Proof.
  induction 1 as [te|n te te2 te3 sn ds Hdec Htemp Hx _ IH]; intros fuel; [reflexivity|].
  assert (Hdecl : exists sdecl, resolver sn = Some sdecl /\ isEnumDecl sdecl = false).
  { destruct te as [[p|p|sn'] ps];
      try (unfold expandAliasOrNewType, expandTypeAlias, expandNewType in Hx; discriminate).
    rewrite (decode_reference_name _ _ _ _ Hdec).
    destruct (expandAliasOrNewType_some _ _ _ _ Hx) as (sdecl & body & tparams & Hres & Hb & _).
    exists sdecl. split; [exact Hres|].
    unfold underlyingTypeExpr in Hb. unfold isEnumDecl.
    destruct (type__ (decl sdecl)); try discriminate; reflexivity. }
  destruct Hdecl as (sdecl & Hres & Henum).
  unfold isTemporalName in Htemp.
  apply orb_false_iff in Htemp. destruct Htemp as [Htemp H3].
  apply orb_false_iff in Htemp. destruct Htemp as [H1 H2].
  cbn [Nat.add]. rewrite getColumnType1_S, Hdec. cbn [bind].
  unfold resolve. rewrite Hres. cbn [fromOption bind].
  rewrite H1, H2, H3, Henum, Hx. cbn [bind]. apply IH.
Qed.




(** * The order of the tables *)

Lemma ascii_compare_refl (c : ascii) : Ascii.compare c c = Eq.
Proof. unfold Ascii.compare. apply N.compare_refl. Qed.

Lemma ascii_compare_lt_trans (a b c : ascii) :
  Ascii.compare a b = Lt -> Ascii.compare b c = Lt -> Ascii.compare a c = Lt.
Proof.
  unfold Ascii.compare. rewrite !N.compare_lt_iff. intros H1 H2.
  exact (N.lt_trans _ _ _ H1 H2).
Qed.

Lemma string_compare_refl (s : string) : String.compare s s = Eq.
Proof.
  induction s as [|c s IH]; simpl; [reflexivity|].
  rewrite ascii_compare_refl. exact IH.
Qed.

Lemma string_compare_lt_trans (a : string) :
  forall b c, String.compare a b = Lt -> String.compare b c = Lt -> String.compare a c = Lt.
Proof.
  induction a as [|x a IH]; intros [|y b] [|z c]; simpl; try discriminate; try reflexivity.
  destruct (Ascii.compare x y) eqn:Hxy; try discriminate;
    destruct (Ascii.compare y z) eqn:Hyz; try discriminate.
  - apply Ascii.compare_eq_iff in Hxy, Hyz. subst. rewrite ascii_compare_refl. apply IH.
  - apply Ascii.compare_eq_iff in Hxy. subst. rewrite Hyz. reflexivity.
  - apply Ascii.compare_eq_iff in Hyz. subst. rewrite Hxy. reflexivity.
  - rewrite (ascii_compare_lt_trans _ _ _ Hxy Hyz). reflexivity.
Qed.

Lemma ltb_trans (a b c : string) :
  String.ltb a b = true -> String.ltb b c = true -> String.ltb a c = true.
Proof.
  unfold String.ltb. intros H1 H2.
  destruct (String.compare a b) eqn:Hab; try discriminate.
  destruct (String.compare b c) eqn:Hbc; try discriminate.
  rewrite (string_compare_lt_trans _ _ _ Hab Hbc). reflexivity.
Qed.

Lemma ltb_irrefl (a : string) : String.ltb a a = false.
Proof. unfold String.ltb. rewrite string_compare_refl. reflexivity. Qed.

Lemma leb_iff_ltb_or_eq (a b : string) :
  String.leb a b = true <-> String.ltb a b = true \/ a = b.
Proof.
  unfold String.leb, String.ltb. split.
  - destruct (String.compare a b) eqn:H; try discriminate.
    + right. apply String.compare_eq_iff. exact H.
    + left. reflexivity.
  - intros [H| ->].
    + destruct (String.compare a b); try discriminate; reflexivity.
    + rewrite string_compare_refl. reflexivity.
Qed.

Lemma leb_trans (a b c : string) :
  String.leb a b = true -> String.leb b c = true -> String.leb a c = true.
Proof.
  rewrite !leb_iff_ltb_or_eq. intros [H1| ->] [H2| ->]; auto.
  left. exact (ltb_trans _ _ _ H1 H2).
Qed.

Lemma ltb_false_leb (a b : string) : String.ltb a b = false -> String.leb b a = true.
Proof.
  unfold String.ltb, String.leb. rewrite (String.compare_antisym a b).
  destruct (String.compare b a); simpl; try discriminate; reflexivity.
Qed.

Lemma compareTables_negative (t1 t2 : DbTable) :
  (compareTables t1 t2 <? 0)%Z = String.ltb (dbt_name t1) (dbt_name t2).
Proof.
  unfold compareTables. destruct (String.ltb (dbt_name t1) (dbt_name t2)); [reflexivity|].
  destruct (String.ltb (dbt_name t2) (dbt_name t1)); reflexivity.
Qed.

Section Sorting.

Variable A : Type.
Variable cmp : A -> A -> Z.

Lemma insertSorted_perm (x : A) (l : list A) : Permutation (insertSorted cmp x l) (x :: l).
Proof.
  induction l as [|y l IH]; cbn [insertSorted]; [reflexivity|].
  destruct (cmp x y <? 0)%Z; [reflexivity|].
  rewrite IH. apply perm_swap.
Qed.

Lemma sort_perm_from (l : list A) :
  forall acc, Permutation (fold_left (fun sorted x => insertSorted cmp x sorted) l acc)
                          (acc ++ l).
Proof.
  induction l as [|x l IH]; intros acc; cbn [fold_left].
  - rewrite app_nil_r. reflexivity.
  - rewrite IH, insertSorted_perm. apply Permutation_middle.
Qed.

Lemma sort_perm (l : list A) : Permutation (sort cmp l) l.
Proof. unfold sort. exact (sort_perm_from l []). Qed.

End Sorting.

Lemma insertSorted_ascending (t : DbTable) (l : list DbTable) :
  tablesAscending l -> tablesAscending (insertSorted compareTables t l).
Proof.
  unfold tablesAscending. induction l as [|y l IH]; intros Hs; cbn [insertSorted].
  - constructor; constructor.
  - rewrite compareTables_negative.
    inversion Hs as [|? ? Hl Hy]; subst.
    destruct (String.ltb (dbt_name t) (dbt_name y)) eqn:Hlt.
    + constructor; [exact Hs|]. constructor.
      * apply leb_iff_ltb_or_eq. left. exact Hlt.
      * rewrite Forall_forall in Hy |- *. intros z Hz.
        apply leb_trans with (dbt_name y); [|exact (Hy z Hz)].
        apply leb_iff_ltb_or_eq. left. exact Hlt.
    + constructor; [exact (IH Hl)|].
      rewrite Forall_forall in Hy |- *. intros z Hz.
      apply (Permutation_in _ (insertSorted_perm _ compareTables t l)) in Hz.
      destruct Hz as [<-|Hz]; [exact (ltb_false_leb _ _ Hlt) | exact (Hy z Hz)].
Qed.

Lemma sort_ascending (l : list DbTable) : tablesAscending (sort compareTables l).
Proof.
  unfold sort.
  assert (H : forall acc, tablesAscending acc ->
                          tablesAscending
                            (fold_left (fun sorted x => insertSorted compareTables x sorted)
                                       l acc)).
  { induction l as [|x l IH]; intros acc Hacc; cbn [fold_left]; [exact Hacc|].
    apply IH. apply insertSorted_ascending. exact Hacc. }
  apply H. constructor.
Qed.

Lemma StronglySorted_map {X Y : Type} (f : X -> Y) (R : Y -> Y -> Prop) (l : list X) :
  StronglySorted (fun a b => R (f a) (f b)) l <-> StronglySorted R (map f l).
Proof.
  induction l as [|x l IH]; cbn [map]; split; intros H; try constructor;
    inversion H as [|? ? Hl Hx]; subst.
  - apply IH. exact Hl.
  - rewrite Forall_forall in Hx |- *. intros y Hy. apply in_map_iff in Hy.
    destruct Hy as (z & <- & Hz). exact (Hx z Hz).
  - apply IH. exact Hl.
  - rewrite Forall_forall in Hx |- *. intros y Hy. apply Hx. apply in_map. exact Hy.
Qed.

(** Ascending names without duplicates ascend strictly. *)
Lemma ascending_NoDup_strict (names : list string) :
  ascending names -> NoDup names -> strictlyAscending names.
Proof.
  unfold ascending, strictlyAscending.
  induction names as [|a names IH]; intros Hs Hnd; [constructor|].
  inversion Hs as [|? ? Hl Ha]; subst. inversion Hnd as [|? ? Hnotin Hnd']; subst.
  constructor; [exact (IH Hl Hnd')|].
  rewrite Forall_forall in Ha |- *. intros b Hb.
  destruct (proj1 (leb_iff_ltb_or_eq a b) (Ha b Hb)) as [Hlt| ->]; [exact Hlt|].
  contradiction.
Qed.

(** Two strictly ascending arrangements of the same tables are equal. *)
Lemma strictly_sorted_unique (l1 : list DbTable) :
  forall l2,
    Permutation l1 l2 ->
    strictlyAscending (map dbt_name l1) -> strictlyAscending (map dbt_name l2) ->
    l1 = l2.
Proof.
  unfold strictlyAscending.
  induction l1 as [|a l1 IH]; intros l2 Hperm H1 H2.
  - apply Permutation_nil in Hperm. subst. reflexivity.
  - destruct l2 as [|b l2]; [apply Permutation_sym, Permutation_nil in Hperm; discriminate|].
    cbn [map] in H1, H2.
    inversion H1 as [|? ? Hs1 Ha]; subst. inversion H2 as [|? ? Hs2 Hb]; subst.
    rewrite Forall_forall in Ha, Hb.
    assert (Hab : a = b).
    { assert (Hina : In a (b :: l2)) by (apply (Permutation_in _ Hperm); left; reflexivity).
      assert (Hinb : In b (a :: l1))
        by (apply (Permutation_in _ (Permutation_sym Hperm)); left; reflexivity).
      destruct Hina as [->|Hina]; [reflexivity|].
      destruct Hinb as [->|Hinb]; [reflexivity|].
      exfalso.
      assert (Hlt1 : String.ltb (dbt_name b) (dbt_name a) = true)
        by (apply Hb; apply in_map; exact Hina).
      assert (Hlt2 : String.ltb (dbt_name a) (dbt_name b) = true)
        by (apply Ha; apply in_map; exact Hinb).
      pose proof (ltb_trans _ _ _ Hlt1 Hlt2) as Hbb. rewrite ltb_irrefl in Hbb.
      discriminate. }
    subst b. f_equal. apply IH; [|exact Hs1 | exact Hs2].
    exact (Permutation_cons_inv Hperm).
Qed.

(** * The layout of the generated file *)

Section LayoutProofs.

Variable snakeCase : string -> string.
Variable typeExprToStringUnscoped : TypeExpr -> string.
Variable resolver : DeclResolver.
Variable fuel : nat.
Variable dbProfile : DbProfile.

Local Abbreviation fieldsOf := (mappedFields snakeCase resolver fuel dbProfile).
Local Abbreviation tablesOf := (mappedTables snakeCase resolver fuel dbProfile).
Local Abbreviation lineOf := (columnLine snakeCase typeExprToStringUnscoped).
Local Abbreviation blockOf := (tableBlock snakeCase typeExprToStringUnscoped dbProfile).
Local Abbreviation constraintsOf := (tableConstraints snakeCase).

Lemma fieldsLoop_layout (t : DbTable) (fields : list Field) :
  forall (lines : list Line) (w cs x : list string),
    fieldsLoop snakeCase typeExprToStringUnscoped resolver fuel dbProfile t fields
               (lines, {| written := w; constraints := cs; allExtraSql := x |})
    = (cols <- fieldsOf fields ;;
       Ok ((lines ++ map lineOf cols)%list,
           {| written := w;
              constraints := (cs ++ foreignKeyStatements snakeCase (t, cols))%list;
              allExtraSql := x |})).
Proof.
  induction fields as [|f fields IH]; intros lines w cs x; cbn [fieldsLoop mappedFields].
  - cbn [bind map foreignKeyStatements flat_map snd]. rewrite !app_nil_r. reflexivity.
  - unfold fieldStep.
    destruct (getColumnType snakeCase resolver fuel (field_typeExpr f) dbProfile)
      as [c|e|] eqn:Hc; cbn [bind]; try reflexivity.
    destruct (fkey c) as [fk|] eqn:Hfk; cbn [bind fst snd]; unfold pushConstraint;
      cbn [written constraints allExtraSql];
      rewrite IH; destruct (fieldsOf fields) as [cols|e|]; cbn [bind]; try reflexivity;
      unfold foreignKeyStatements; cbn [flat_map snd fst map]; rewrite Hfk;
      rewrite <- !app_assoc; reflexivity.
Qed.

Lemma indexesLoop_layout (t : DbTable) (groups : list (list string)) :
  forall (i : nat) (w cs x : list string),
    indexesLoop snakeCase t i groups {| written := w; constraints := cs; allExtraSql := x |}
    = {| written := w;
         constraints := (cs ++ indexStatementsFrom snakeCase t i groups)%list;
         allExtraSql := x |}.
Proof.
  induction groups as [|g groups IH]; intros i w cs x;
    cbn [indexesLoop indexStatementsFrom].
  - rewrite app_nil_r. reflexivity.
  - unfold pushConstraint; cbn [written constraints allExtraSql].
    rewrite IH, <- app_assoc. reflexivity.
Qed.

Lemma uniquenessLoop_layout (t : DbTable) (groups : list (list string)) :
  forall (i : nat) (w cs x : list string),
    uniquenessLoop snakeCase t i groups {| written := w; constraints := cs; allExtraSql := x |}
    = {| written := w;
         constraints := (cs ++ uniquenessStatementsFrom snakeCase t i groups)%list;
         allExtraSql := x |}.
Proof.
  induction groups as [|g groups IH]; intros i w cs x;
    cbn [uniquenessLoop uniquenessStatementsFrom].
  - rewrite app_nil_r. reflexivity.
  - unfold pushConstraint; cbn [written constraints allExtraSql].
    rewrite IH, <- app_assoc. reflexivity.
Qed.

Lemma writeLines_layout (lines : list Line) :
  forall (w cs x : list string),
    writeLines lines {| written := w; constraints := cs; allExtraSql := x |}
    = {| written := (w ++ renderLines lines)%list; constraints := cs; allExtraSql := x |}.
Proof.
  induction lines as [|l lines IH]; intros w cs x; cbn [writeLines renderLines].
  - rewrite app_nil_r. reflexivity.
  - unfold write; cbn [written constraints allExtraSql].
    rewrite IH, <- app_assoc. reflexivity.
Qed.

Lemma tableStep_layout (t : DbTable) (w cs x : list string) :
  tableStep snakeCase typeExprToStringUnscoped resolver fuel dbProfile
            {| written := w; constraints := cs; allExtraSql := x |} t
  = (cols <- fieldsOf (struct_fields (dbt_struct t)) ;;
     Ok {| written := (w ++ blockOf (t, cols))%list;
           constraints := (cs ++ constraintsOf (t, cols))%list;
           allExtraSql := (x ++ tableExtraSql t)%list |}).
Proof.
  unfold tableStep. rewrite fieldsLoop_layout.
  destruct (fieldsOf (struct_fields (dbt_struct t))) as [cols|e|]; cbn [bind];
    try reflexivity.
  cbn [fst snd]. rewrite indexesLoop_layout, uniquenessLoop_layout.
  unfold write at 1 2; cbn [written constraints allExtraSql].
  rewrite writeLines_layout.
  unfold write, concatExtraSql; cbn [written constraints allExtraSql].
  f_equal. f_equal.
  - unfold tableBlock, idLines, primaryKeyLines, createTableStatement.
    cbn [fst snd].
    destruct (annFlag (dbt_ann t) withIdPrimaryKey);
      [|destruct (0 <? List.length (annProp (dbt_ann t) withPrimaryKey []))%nat];
      rewrite <- ?app_assoc; cbn [app]; rewrite ?app_nil_r; reflexivity.
  - unfold tableConstraints, indexStatements, uniquenessStatements.
    cbn [fst]. rewrite <- !app_assoc. reflexivity.
Qed.

Lemma tablesLoop_layout (dbTables : list DbTable) :
  forall (w cs x : list string),
    tablesLoop snakeCase typeExprToStringUnscoped resolver fuel dbProfile dbTables
               {| written := w; constraints := cs; allExtraSql := x |}
    = (mts <- tablesOf dbTables ;;
       Ok {| written := (w ++ flat_map blockOf mts)%list;
             constraints := (cs ++ flat_map constraintsOf mts)%list;
             allExtraSql := (x ++ flat_map tableExtraSql dbTables)%list |}).
Proof.
  induction dbTables as [|t dbTables IH]; intros w cs x; cbn [tablesLoop mappedTables].
  - cbn [bind flat_map]. rewrite !app_nil_r. reflexivity.
  - rewrite tableStep_layout.
    destruct (fieldsOf (struct_fields (dbt_struct t))) as [cols|e|]; cbn [bind];
      try reflexivity.
    rewrite IH. destruct (tablesOf dbTables) as [mts|e|]; cbn [bind]; try reflexivity.
    cbn [flat_map]. rewrite <- !app_assoc. reflexivity.
Qed.

Lemma mappedTables_fst (dbTables : list DbTable) :
  forall mts, tablesOf dbTables = Ok mts -> map fst mts = dbTables.
Proof.
  induction dbTables as [|t dbTables IH]; intros mts; cbn [mappedTables].
  - intros [= <-]. reflexivity.
  - destruct (fieldsOf (struct_fields (dbt_struct t))) as [cols|e|]; cbn [bind];
      try discriminate.
    destruct (tablesOf dbTables) as [mts'|e|]; cbn [bind]; try discriminate.
    intros [= <-]. cbn [map fst]. rewrite (IH mts' eq_refl). reflexivity.
Qed.

End LayoutProofs.

Lemma writeConstraints_layout (cs : list string) :
  forall (w cs0 x : list string),
    writeConstraints cs {| written := w; constraints := cs0; allExtraSql := x |}
    = {| written := (w ++ map (fun c => (c ++ newline)%string) cs)%list;
         constraints := cs0; allExtraSql := x |}.
Proof.
  induction cs as [|c cs IH]; intros w cs0 x; cbn [writeConstraints map].
  - rewrite app_nil_r. reflexivity.
  - unfold write; cbn [written constraints allExtraSql].
    rewrite IH, <- app_assoc. reflexivity.
Qed.

Lemma writeExtraSql_layout (keys : list string) :
  forall (w cs x : list string),
    writeExtraSql keys {| written := w; constraints := cs; allExtraSql := x |}
    = {| written := (w ++ map (fun sql => (sql ++ newline)%string) keys)%list;
         constraints := cs; allExtraSql := x |}.
Proof.
  induction keys as [|k keys IH]; intros w cs x; cbn [writeExtraSql map].
  - rewrite app_nil_r. reflexivity.
  - unfold write; cbn [written constraints allExtraSql].
    rewrite IH, <- app_assoc. reflexivity.
Qed.

(** The generated file, section by section. *)
Lemma generateSqlSchema_layout
      (snakeCase : string -> string) (typeExprToStringUnscoped : TypeExpr -> string)
      (fuel : nat) (loadedAdl : LoadedAdl) (dbProfile : DbProfile) :
  generateSqlSchema snakeCase typeExprToStringUnscoped fuel loadedAdl dbProfile
  = (mts <- mappedTables snakeCase (adl_resolver loadedAdl) fuel dbProfile
                         (collectDbTables snakeCase (adl_modules loadedAdl)) ;;
     Ok (schemaHeader (collectDbTables snakeCase (adl_modules loadedAdl))
         ++ flat_map (tableBlock snakeCase typeExprToStringUnscoped dbProfile) mts
         ++ constraintSection (flat_map (tableConstraints snakeCase) mts)
         ++ extraSqlSection
              (flat_map tableExtraSql (collectDbTables snakeCase (adl_modules loadedAdl))))%list).
Proof.
  unfold generateSqlSchema. unfold write at 1 2 3; cbn [written constraints allExtraSql app].
  rewrite tablesLoop_layout.
  destruct (mappedTables snakeCase (adl_resolver loadedAdl) fuel dbProfile
                         (collectDbTables snakeCase (adl_modules loadedAdl)))
    as [mts|e|]; cbn [bind]; try reflexivity.
  cbn [written constraints allExtraSql app].
  set (cs := flat_map (tableConstraints snakeCase) mts).
  set (x := flat_map tableExtraSql (collectDbTables snakeCase (adl_modules loadedAdl))).
  unfold constraintSection, extraSqlSection, separator, schemaHeader.
  destruct (0 <? List.length cs)%nat;
    unfold write; cbn [written constraints allExtraSql];
    rewrite writeConstraints_layout; cbn [written constraints allExtraSql];
    destruct (0 <? List.length x)%nat;
    unfold write; cbn [written constraints allExtraSql];
    rewrite writeExtraSql_layout; cbn [written constraints allExtraSql];
    rewrite <- ?app_assoc; cbn [app]; reflexivity.
Qed.

(** * Which of the written strings are [create table] statements *)

Lemma Ok_inj {A : Type} (a b : A) : Ok a = Ok b -> a = b.
Proof. intros [= ->]. reflexivity. Qed.

Lemma prefix_append (p s : string) : String.prefix p (p ++ s) = true.
Proof.
  induction p as [|a p IH]; simpl.
  - destruct s; reflexivity.
  - destruct (ascii_dec a a) as [_|Hne]; [exact IH | congruence].
Qed.

Lemma isCreateTable_createTableStatement (t : DbTable) :
  isCreateTable (createTableStatement t) = true.
Proof. unfold isCreateTable, createTableStatement. apply prefix_append. Qed.

Lemma renderLines_no_createTable (lines : list Line) :
  filter isCreateTable (renderLines lines) = [].
Proof. induction lines as [|l lines IH]; [reflexivity|]. cbn [renderLines filter]. exact IH. Qed.

Lemma numberToString_no_createTable (n : nat) :
  isCreateTable (numberToString n ++ newline) = false.
Proof. unfold numberToString. destruct (Nat.to_uint n); reflexivity. Qed.

Section Statements.

Variable snakeCase : string -> string.
Variable typeExprToStringUnscoped : TypeExpr -> string.
Variable dbProfile : DbProfile.

Lemma tableBlock_createTable (mt : DbTable * list (Field * ColumnType)) :
  filter isCreateTable (tableBlock snakeCase typeExprToStringUnscoped dbProfile mt)
  = [createTableStatement (fst mt)].
Proof.
  unfold tableBlock. cbn [app filter].
  replace (isCreateTable newline) with false by reflexivity.
  rewrite isCreateTable_createTableStatement, filter_app, renderLines_no_createTable.
  reflexivity.
Qed.

Lemma tableBlocks_createTable (mts : list (DbTable * list (Field * ColumnType))) :
  filter isCreateTable (flat_map (tableBlock snakeCase typeExprToStringUnscoped dbProfile) mts)
  = map createTableStatement (map fst mts).
Proof.
  induction mts as [|mt mts IH]; [reflexivity|].
  cbn [flat_map map]. rewrite filter_app, tableBlock_createTable, IH. reflexivity.
Qed.

Lemma indexStatementsFrom_no_createTable (t : DbTable) (groups : list (list string)) :
  forall i, Forall (fun c => isCreateTable (c ++ newline) = false)
                   (indexStatementsFrom snakeCase t i groups).
Proof.
  induction groups as [|g groups IH]; intros i; cbn [indexStatementsFrom]; constructor;
    [reflexivity | apply IH].
Qed.

Lemma uniquenessStatementsFrom_no_createTable (t : DbTable) (groups : list (list string)) :
  forall i, Forall (fun c => isCreateTable (c ++ newline) = false)
                   (uniquenessStatementsFrom snakeCase t i groups).
Proof.
  induction groups as [|g groups IH]; intros i; cbn [uniquenessStatementsFrom]; constructor;
    [reflexivity | apply IH].
Qed.

Lemma foreignKeyStatements_no_createTable (mt : DbTable * list (Field * ColumnType)) :
  Forall (fun c => isCreateTable (c ++ newline) = false) (foreignKeyStatements snakeCase mt).
Proof.
  unfold foreignKeyStatements. induction (snd mt) as [|fc cols IH]; cbn [flat_map];
    [constructor|].
  destruct (fkey (snd fc)); cbn [app]; [constructor; [reflexivity | exact IH] | exact IH].
Qed.

Lemma tableConstraints_no_createTable (mts : list (DbTable * list (Field * ColumnType))) :
  Forall (fun c => isCreateTable (c ++ newline) = false)
         (flat_map (tableConstraints snakeCase) mts).
Proof.
  induction mts as [|mt mts IH]; cbn [flat_map]; [constructor|].
  apply Forall_app. split; [|exact IH].
  unfold tableConstraints. apply Forall_app. split;
    [apply foreignKeyStatements_no_createTable|].
  apply Forall_app. split;
    [apply indexStatementsFrom_no_createTable | apply uniquenessStatementsFrom_no_createTable].
Qed.

End Statements.

Lemma constraintSection_no_createTable (cs : list string) :
  Forall (fun c => isCreateTable (c ++ newline) = false) cs ->
  filter isCreateTable (constraintSection cs) = [].
Proof.
  intros Hall. unfold constraintSection, separator. rewrite filter_app.
  assert (Hmap : filter isCreateTable (map (fun c => c ++ newline) cs) = []).
  { induction Hall as [|c cs Hc _ IH]; [reflexivity|]. cbn [map filter]. rewrite Hc. exact IH. }
  rewrite Hmap. destruct (0 <? List.length cs)%nat; reflexivity.
Qed.

Lemma extraSqlSection_no_createTable (allExtra : list string) :
  filter isCreateTable (extraSqlSection allExtra) = [].
Proof.
  unfold extraSqlSection, separator, arrayKeys. rewrite filter_app.
  assert (Hmap : forall l, filter isCreateTable
                             (map (fun sql => sql ++ newline) (map numberToString l)) = []).
  { induction l as [|n l IH]; [reflexivity|]. cbn [map filter].
    rewrite numberToString_no_createTable. exact IH. }
  rewrite Hmap. destruct (0 <? List.length allExtra)%nat; reflexivity.
Qed.

Lemma extraSqlSection_length (allExtra : list string) :
  List.length (extraSqlSection allExtra)
  = List.length (separator allExtra) + List.length allExtra.
Proof.
  unfold extraSqlSection, arrayKeys.
  rewrite length_app, !length_map, length_seq. reflexivity.
Qed.

(** The [create table] statements of the generated file are those of
    the collected tables, in the order of the collection. *)
Lemma generateSqlSchema_createTable
      (snakeCase : string -> string) (typeExprToStringUnscoped : TypeExpr -> string)
      (fuel : nat) (loadedAdl : LoadedAdl) (dbProfile : DbProfile) (out : list string) :
  generateSqlSchema snakeCase typeExprToStringUnscoped fuel loadedAdl dbProfile = Ok out ->
  filter isCreateTable out
  = map createTableStatement (collectDbTables snakeCase (adl_modules loadedAdl)).
Proof.
  rewrite generateSqlSchema_layout.
  destruct (mappedTables snakeCase (adl_resolver loadedAdl) fuel dbProfile
                         (collectDbTables snakeCase (adl_modules loadedAdl)))
    as [mts|e|] eqn:Hmts; cbn [bind]; try discriminate.
  intros Hout. apply Ok_inj in Hout. subst out.
  rewrite !filter_app, tableBlocks_createTable, extraSqlSection_no_createTable.
  rewrite (constraintSection_no_createTable _ (tableConstraints_no_createTable snakeCase mts)).
  rewrite (mappedTables_fst _ _ _ _ _ _ Hmts).
  replace (filter isCreateTable (schemaHeader (collectDbTables snakeCase (adl_modules loadedAdl))))
    with (@nil string) by reflexivity.
  rewrite !app_nil_r. reflexivity.
Qed.

(** * The generated file *)

Lemma collectDbTables_ascending (snakeCase : string -> string) (modules : list Module) :
  ascending (map dbt_name (collectDbTables snakeCase modules)).
Proof.
  unfold ascending, collectDbTables. apply StronglySorted_map.
  exact (sort_ascending _).
Qed.

Lemma collectDbTables_perm (snakeCase : string -> string) (modules : list Module) :
  Permutation (collectDbTables snakeCase modules)
              (flat_map (dbTableOfDecl snakeCase) (forEachDecl modules)).
Proof. unfold collectDbTables. apply sort_perm. Qed.

Lemma dbTableOfDecl_In (snakeCase : string -> string) (sdecl : ScopedDecl) (t : DbTable) :
  In t (dbTableOfDecl snakeCase sdecl) ->
  dbt_scopedDecl t = sdecl /\
  type__ (decl sdecl) = struct_ (dbt_struct t) /\
  getAnnotation (decl_annotations (decl sdecl)) DB_TABLE = Some (dbt_ann t) /\
  dbt_ann t <> JNull /\
  dbt_name t = getTableName snakeCase sdecl.
Proof.
  unfold dbTableOfDecl.
  destruct (type__ (decl sdecl)) as [s|u|td|nt]; try contradiction.
  destruct (getAnnotation (decl_annotations (decl sdecl)) DB_TABLE) as [[|a|o]|];
    try contradiction; (intros [<-|[]]; cbn; repeat split; discriminate).
Qed.

Lemma dbTableOfDecl_struct_only (snakeCase : string -> string) (l : list ScopedDecl) :
  flat_map (dbTableOfDecl snakeCase) l
  = flat_map (dbTableOfDecl snakeCase) (filter isStructDecl l).
Proof.
  induction l as [|sdecl l IH]; [reflexivity|]. cbn [flat_map filter].
  unfold isStructDecl at 1, dbTableOfDecl at 1.
  destruct (type__ (decl sdecl)) eqn:Hty; cbn [app]; try exact IH.
  cbn [flat_map]. unfold dbTableOfDecl at 2. rewrite Hty, IH. reflexivity.
Qed.

(** C4, as the code has it.  The generated file is the header, then all
    the [create table] blocks in table order, then one run of
    statements per table, in table order, holding the foreign keys of
    the table, then its indexes, then its uniqueness constraints, and
    then the section written for the raw trailing SQL, with one line
    per string; nothing after the table blocks is a [create table]
    statement. *)
Theorem statements_grouped_by_table
        (snakeCase : string -> string) (typeExprToStringUnscoped : TypeExpr -> string)
        (fuel : nat) (loadedAdl : LoadedAdl) (dbProfile : DbProfile) (out : list string) :
  generateSqlSchema snakeCase typeExprToStringUnscoped fuel loadedAdl dbProfile = Ok out ->
  exists mts trailing,
    mappedTables snakeCase (adl_resolver loadedAdl) fuel dbProfile
                 (collectDbTables snakeCase (adl_modules loadedAdl)) = Ok mts /\
    map fst mts = collectDbTables snakeCase (adl_modules loadedAdl) /\
    out = (schemaHeader (collectDbTables snakeCase (adl_modules loadedAdl))
           ++ flat_map (tableBlock snakeCase typeExprToStringUnscoped dbProfile) mts
           ++ constraintSection
                (flat_map (fun mt => foreignKeyStatements snakeCase mt
                                     ++ indexStatements snakeCase (fst mt)
                                     ++ uniquenessStatements snakeCase (fst mt)) mts)
           ++ trailing)%list /\
    List.length trailing
    = List.length (separator (flat_map tableExtraSql (map fst mts)))
      + List.length (flat_map tableExtraSql (map fst mts)) /\
    filter isCreateTable
           (constraintSection
              (flat_map (fun mt => foreignKeyStatements snakeCase mt
                                   ++ indexStatements snakeCase (fst mt)
                                   ++ uniquenessStatements snakeCase (fst mt)) mts)
            ++ trailing)%list = [].
Proof.
  rewrite generateSqlSchema_layout.
  destruct (mappedTables snakeCase (adl_resolver loadedAdl) fuel dbProfile
                         (collectDbTables snakeCase (adl_modules loadedAdl)))
    as [mts|e|] eqn:Hmts; cbn [bind]; try discriminate.
  intros Hout. apply Ok_inj in Hout. subst out.
  pose proof (mappedTables_fst _ _ _ _ _ _ Hmts) as Hfst.
  exists mts,
    (extraSqlSection (flat_map tableExtraSql (collectDbTables snakeCase (adl_modules loadedAdl)))).
  split; [reflexivity|]. split; [exact Hfst|]. split; [reflexivity|]. split.
  - rewrite Hfst. apply extraSqlSection_length.
  - rewrite filter_app, extraSqlSection_no_createTable, app_nil_r.
    exact (constraintSection_no_createTable _ (tableConstraints_no_createTable snakeCase mts)).
Qed.

Lemma statements_grouped_by_table_witness :
  generateSqlSchema Sample.snakeCase Sample.typeExprToStringUnscoped 10 Sample.loadedAdl
                    postgresDbProfile = Ok Sample.schema /\
  exists (mts : list (DbTable * list (Field * ColumnType))) (trailing : list string),
    map fst mts = collectDbTables Sample.snakeCase Sample.modules /\
    List.length trailing = 2.
Proof.
  assert (Hrun : generateSqlSchema Sample.snakeCase Sample.typeExprToStringUnscoped 10
                                   Sample.loadedAdl postgresDbProfile = Ok Sample.schema)
    by (vm_compute; reflexivity).
  split; [exact Hrun|].
  destruct (statements_grouped_by_table
              Sample.snakeCase Sample.typeExprToStringUnscoped 10 Sample.loadedAdl
              postgresDbProfile Sample.schema Hrun)
    as (mts & trailing & _ & Hfst & _ & Hlen & _).
  exists mts, trailing. split; [exact Hfst|].
  rewrite Hlen, Hfst. vm_compute. reflexivity.
Defined.

(** C4, as stated, fails: the index of the first table is written
    before the foreign key of the second one. *)
Lemma index_precedes_later_foreign_key :
  generateSqlSchema Sample.snakeCase Sample.typeExprToStringUnscoped 10 Sample.loadedAdl
                    postgresDbProfile = Ok Sample.schema /\
  nth_error Sample.schema 21 = Some ("create index company_1_idx on company(name);" ++ newline) /\
  nth_error Sample.schema 23
  = Some ("alter table person add constraint person_employer_fk foreign key (employer) references company(id);"
          ++ newline) /\
  ~ foreignKeysBeforeIndexes Sample.schema.
Proof.
  split; [vm_compute; reflexivity|]. split; [reflexivity|]. split; [reflexivity|].
  intros Horder.
  specialize (Horder 21 23 _ _ eq_refl eq_refl eq_refl eq_refl). lia.
Qed.

(** C5 on the sample: the table carries one raw SQL string, and the
    file ends with the line "0", the index of that string in
    [allExtraSql]; the string itself is not written. *)
Lemma extra_sql_written_as_index :
  generateSqlSchema Sample.snakeCase Sample.typeExprToStringUnscoped 10 Sample.loadedAdl
                    postgresDbProfile = Ok Sample.schema /\
  flat_map tableExtraSql (collectDbTables Sample.snakeCase Sample.modules)
  = ["grant select on person to reporting;"] /\
  last Sample.schema "" = "0" ++ newline /\
  ~ In ("grant select on person to reporting;" ++ newline) Sample.schema.
Proof.
  split; [vm_compute; reflexivity|]. split; [vm_compute; reflexivity|].
  split; [reflexivity|].
  intros Hin.
  assert (Hex : existsb (String.eqb ("grant select on person to reporting;" ++ newline))
                        Sample.schema = true)
    by (apply existsb_exists; eexists; split; [exact Hin | apply String.eqb_refl]).
  vm_compute in Hex. discriminate.
Qed.

(** C8, as the code has it.  The [create table] statements of the
    generated file are those of the collected tables, whose names
    ascend; they ascend strictly when no two tables share a name, and
    then the collection does not depend on the order in which the
    modules hold the declarations. *)
Theorem tables_ascend_by_name
        (snakeCase : string -> string) (typeExprToStringUnscoped : TypeExpr -> string)
        (fuel : nat) (loadedAdl : LoadedAdl) (dbProfile : DbProfile) (out : list string) :
  generateSqlSchema snakeCase typeExprToStringUnscoped fuel loadedAdl dbProfile = Ok out ->
  filter isCreateTable out
  = map createTableStatement (collectDbTables snakeCase (adl_modules loadedAdl)) /\
  ascending (map dbt_name (collectDbTables snakeCase (adl_modules loadedAdl))) /\
  (NoDup (map dbt_name (collectDbTables snakeCase (adl_modules loadedAdl))) ->
   strictlyAscending (map dbt_name (collectDbTables snakeCase (adl_modules loadedAdl))) /\
   forall modules',
     Permutation (forEachDecl modules') (forEachDecl (adl_modules loadedAdl)) ->
     collectDbTables snakeCase modules' = collectDbTables snakeCase (adl_modules loadedAdl)).
Proof.
  intros Hout. split; [exact (generateSqlSchema_createTable _ _ _ _ _ _ Hout)|].
  split; [apply collectDbTables_ascending|].
  intros Hnd.
  assert (Hstrict : strictlyAscending
                      (map dbt_name (collectDbTables snakeCase (adl_modules loadedAdl)))).
  { apply ascending_NoDup_strict; [apply collectDbTables_ascending | exact Hnd]. }
  split; [exact Hstrict|].
  intros modules' Hperm.
  assert (Hp : Permutation (collectDbTables snakeCase modules')
                           (collectDbTables snakeCase (adl_modules loadedAdl))).
  { rewrite !collectDbTables_perm. apply Permutation_flat_map. exact Hperm. }
  apply strictly_sorted_unique; [exact Hp | | exact Hstrict].
  apply ascending_NoDup_strict; [apply collectDbTables_ascending|].
  apply (Permutation_NoDup (Permutation_sym (Permutation_map dbt_name Hp))). exact Hnd.
Qed.

Lemma tables_ascend_by_name_witness :
  generateSqlSchema Sample.snakeCase Sample.typeExprToStringUnscoped 10 Sample.loadedAdl
                    postgresDbProfile = Ok Sample.schema /\
  filter isCreateTable Sample.schema
  = map createTableStatement (collectDbTables Sample.snakeCase Sample.modules).
Proof.
  assert (Hrun : generateSqlSchema Sample.snakeCase Sample.typeExprToStringUnscoped 10
                                   Sample.loadedAdl postgresDbProfile = Ok Sample.schema)
    by (vm_compute; reflexivity).
  split; [exact Hrun|].
  exact (proj1 (tables_ascend_by_name
                  Sample.snakeCase Sample.typeExprToStringUnscoped 10 Sample.loadedAdl
                  postgresDbProfile Sample.schema Hrun)).
Defined.

(** C8, as stated, fails: two modules that each declare a table
    "Person" give two [create table person] statements, and the names
    do not ascend strictly. *)
Lemma duplicate_table_names_not_strict :
  generateSqlSchema Sample.snakeCase Sample.typeExprToStringUnscoped 10
                    Sample.loadedWithCrm postgresDbProfile = Ok Sample.schemaWithCrm /\
  filter isCreateTable Sample.schemaWithCrm
  = ["create table company(" ++ newline; "create table person(" ++ newline;
     "create table person(" ++ newline] /\
  map dbt_name (collectDbTables Sample.snakeCase (adl_modules Sample.loadedWithCrm))
  = ["company"; "person"; "person"] /\
  ~ strictlyAscending
      (map dbt_name (collectDbTables Sample.snakeCase (adl_modules Sample.loadedWithCrm))).
Proof.
  assert (Hnames : map dbt_name
                       (collectDbTables Sample.snakeCase (adl_modules Sample.loadedWithCrm))
                   = ["company"; "person"; "person"]) by (vm_compute; reflexivity).
  split; [vm_compute; reflexivity|]. split; [vm_compute; reflexivity|].
  split; [exact Hnames|].
  unfold strictlyAscending. rewrite Hnames. intros Hs.
  inversion Hs as [|? ? Hs1 _]; subst. inversion Hs1 as [|? ? _ Hp]; subst.
  inversion Hp as [|? ? Hlt _]; subst. discriminate Hlt.
Qed.

(** C10. Every collected table comes from a struct declaration that
    carries the table annotation, the [create table] statements of the
    generated file are those of the collected tables, and the file does
    not depend on the declarations that are not structs: unions,
    newtypes and type aliases are passed over whatever their
    annotations. *)
Theorem only_annotated_structs_become_tables
        (snakeCase : string -> string) (typeExprToStringUnscoped : TypeExpr -> string)
        (fuel : nat) (loadedAdl : LoadedAdl) (dbProfile : DbProfile) :
  (forall t, In t (collectDbTables snakeCase (adl_modules loadedAdl)) ->
             exists sdecl,
               In sdecl (forEachDecl (adl_modules loadedAdl)) /\
               dbt_scopedDecl t = sdecl /\
               type__ (decl sdecl) = struct_ (dbt_struct t) /\
               getAnnotation (decl_annotations (decl sdecl)) DB_TABLE = Some (dbt_ann t)) /\
  (forall sdecl, isStructDecl sdecl = false -> dbTableOfDecl snakeCase sdecl = []) /\
  (forall out,
      generateSqlSchema snakeCase typeExprToStringUnscoped fuel loadedAdl dbProfile = Ok out ->
      filter isCreateTable out
      = map createTableStatement (collectDbTables snakeCase (adl_modules loadedAdl))) /\
  (forall modules',
      filter isStructDecl (forEachDecl modules')
      = filter isStructDecl (forEachDecl (adl_modules loadedAdl)) ->
      generateSqlSchema snakeCase typeExprToStringUnscoped fuel
                        {| adl_modules := modules'; adl_resolver := adl_resolver loadedAdl |}
                        dbProfile
      = generateSqlSchema snakeCase typeExprToStringUnscoped fuel loadedAdl dbProfile).
Proof.
  split; [|split; [|split]].
  - intros t Ht. apply (Permutation_in _ (collectDbTables_perm snakeCase _)) in Ht.
    apply in_flat_map in Ht. destruct Ht as (sdecl & Hsd & Ht).
    destruct (dbTableOfDecl_In _ _ _ Ht) as (H1 & H2 & H3 & _).
    exists sdecl. repeat split; assumption.
  - intros sdecl Hns. unfold isStructDecl in Hns. unfold dbTableOfDecl.
    destruct (type__ (decl sdecl)); [discriminate | reflexivity | reflexivity | reflexivity].
  - intros out Hout. exact (generateSqlSchema_createTable _ _ _ _ _ _ Hout).
  - intros modules' Hsame.
    assert (Hcollect : collectDbTables snakeCase modules'
                       = collectDbTables snakeCase (adl_modules loadedAdl)).
    { unfold collectDbTables.
      rewrite (dbTableOfDecl_struct_only snakeCase (forEachDecl modules')), Hsame.
      rewrite <- dbTableOfDecl_struct_only. reflexivity. }
    unfold generateSqlSchema. cbn [adl_modules adl_resolver]. rewrite Hcollect. reflexivity.
Qed.

(** * Further properties of the mapper *)

Lemma decode_reference_shape (sn : ScopedName) (ps : list TypeExpr) (dt : DecodedTypeExpr) :
  decodeTypeExpr (mkTypeExpr (reference sn) ps) = Ok dt ->
  exists ds, dt = DReference sn ds.
Proof.
  simpl. match goal with |- bind ?r _ = _ -> _ => destruct r as [ds| |] end;
    cbn [bind]; try discriminate.
  intros [= <-]. exists ds. reflexivity.
Qed.

Lemma isTemporalName_false (sn : ScopedName) :
  isTemporalName sn = false ->
  scopedNamesEqual sn INSTANT = false /\ scopedNamesEqual sn LOCAL_DATE = false
  /\ scopedNamesEqual sn LOCAL_DATETIME = false.
Proof.
  unfold isTemporalName. intros H.
  apply orb_false_iff in H. destruct H as [H H3].
  apply orb_false_iff in H. destruct H as [H1 H2]. auto.
Qed.

(** The step of the reduction at a reference that is resolved and is
    not one of the temporal names. *)
Lemma getColumnType1_reference
      (resolver : DeclResolver) (fuel : nat) (te : TypeExpr) (dbProfile : DbProfile)
      (sn : ScopedName) (ds : list DecodedTypeExpr) (sdecl : ScopedDecl) :
  decodeTypeExpr te = Ok (DReference sn ds) ->
  resolver sn = Some sdecl ->
  isTemporalName sn = false ->
  getColumnType1 resolver (S fuel) te dbProfile
  = if isEnumDecl sdecl then Ok (enumColumnType dbProfile)
    else (texpr2 <- expandAliasOrNewType resolver te ;;
          match texpr2 with
          | Some te2 => getColumnType1 resolver fuel te2 dbProfile
          | None => Ok (primColumnType dbProfile "Reference")
          end).
Proof.
  intros Hdec Hres Htemp. destruct (isTemporalName_false _ Htemp) as (H1 & H2 & H3).
  rewrite getColumnType1_S, Hdec. cbn [bind]. unfold resolve. rewrite Hres.
  cbn [fromOption bind]. rewrite H1, H2, H3. reflexivity.
Qed.

Lemma expandAliasOrNewType_struct_or_union
      (resolver : DeclResolver) (sn : ScopedName) (ps : list TypeExpr) (sdecl : ScopedDecl) :
  resolver sn = Some sdecl ->
  underlyingTypeExpr sdecl = None ->
  expandAliasOrNewType resolver (mkTypeExpr (reference sn) ps) = Ok None.
Proof.
  intros Hres Hnone.
  unfold expandAliasOrNewType, expandTypeAlias, expandNewType, resolve, underlyingTypeExpr in *.
  cbn [typeRef parameters]. rewrite Hres. cbn [fromOption bind].
  destruct (type__ (decl sdecl)); try discriminate; reflexivity.
Qed.

(** A reference to a union whose fields all have the type Void maps to
    the enum column type of the profile, whatever the type parameters
    and whatever the primitive table of the profile; a union without
    fields counts as such an enumeration. *)
Theorem enum_reference_maps_to_enum_type
        (resolver : DeclResolver) (fuel : nat) (sn : ScopedName) (ps : list TypeExpr)
        (dt : DecodedTypeExpr) (sdecl : ScopedDecl) (u : Union) (dbProfile : DbProfile) :
  decodeTypeExpr (mkTypeExpr (reference sn) ps) = Ok dt ->
  resolver sn = Some sdecl ->
  isTemporalName sn = false ->
  type__ (decl sdecl) = union_ u ->
  (forall f, In f (union_fields u) -> typeRef (field_typeExpr f) = primitive "Void") ->
  getColumnType1 resolver (S fuel) (mkTypeExpr (reference sn) ps) dbProfile
  = Ok (enumColumnType dbProfile).
Proof.
  intros Hdec Hres Htemp Hty Hvoid.
  destruct (decode_reference_shape _ _ _ Hdec) as [ds ->].
  rewrite (getColumnType1_reference _ _ _ _ _ _ _ Hdec Hres Htemp).
  unfold isEnumDecl. rewrite Hty.
  assert (Henum : isEnum u = true).
  { unfold isEnum. apply forallb_forall. intros f Hf. unfold isVoid.
    rewrite (Hvoid f Hf). reflexivity. }
  rewrite Henum. reflexivity.
Qed.

Lemma enum_reference_maps_to_enum_type_witness :
  decodeTypeExpr (Sample.ref "app" "Role" []) = Ok (DReference (scopedName "app" "Role") []) /\
  getColumnType1 (declResolver Sample.modules) 1 (Sample.ref "app" "Role" []) mssql2DbProfile
  = Ok "nvchar(64)".
Proof.
  split; [reflexivity|].
  refine (enum_reference_maps_to_enum_type
            (declResolver Sample.modules) 0 (scopedName "app" "Role") []
            (DReference (scopedName "app" "Role") [])
            {| sd_moduleName := "app";
               decl := Sample.plainDecl "Role"
                         (union_ {| union_typeParams := [];
                                    union_fields := [ Sample.field "admin" (Sample.prim "Void");
                                                      Sample.field "member" (Sample.prim "Void") ] |}) |}
            _ mssql2DbProfile eq_refl eq_refl eq_refl eq_refl _).
  intros f [<-|[<-|[]]]; reflexivity.
Defined.

(** A reference to a struct, or to a union that has a field with a
    payload, is not expanded: it maps to what the profile returns for
    the kind "Reference", which for the three profiles of the source
    is the default opaque type. *)
Theorem composite_reference_maps_to_opaque
        (resolver : DeclResolver) (fuel : nat) (sn : ScopedName) (ps : list TypeExpr)
        (dt : DecodedTypeExpr) (sdecl : ScopedDecl) (dbProfile : DbProfile) :
  decodeTypeExpr (mkTypeExpr (reference sn) ps) = Ok dt ->
  resolver sn = Some sdecl ->
  isTemporalName sn = false ->
  underlyingTypeExpr sdecl = None ->
  isEnumDecl sdecl = false ->
  getColumnType1 resolver (S fuel) (mkTypeExpr (reference sn) ps) dbProfile
  = Ok (primColumnType dbProfile "Reference") /\
  forall tbl dflt, In (dbProfile, tbl, dflt) shippedProfiles ->
                   primColumnType dbProfile "Reference" = dflt.
Proof.
  intros Hdec Hres Htemp Hnone Henum. split.
  - destruct (decode_reference_shape _ _ _ Hdec) as [ds ->].
    rewrite (getColumnType1_reference _ _ _ _ _ _ _ Hdec Hres Htemp), Henum.
    rewrite (expandAliasOrNewType_struct_or_union _ _ _ _ Hres Hnone). reflexivity.
  - intros tbl dflt Hin. rewrite (shippedProfiles_switch _ _ _ Hin).
    apply switch_unmapped. simpl in Hin.
    destruct Hin as [H|[H|[H|[]]]]; injection H as _ <- _; simpl; intuition discriminate.
Qed.

Lemma composite_reference_maps_to_opaque_witness :
  decodeTypeExpr (Sample.ref "app" "Address" [])
  = Ok (DReference (scopedName "app" "Address") []) /\
  getColumnType1 (declResolver Sample.modules) 1 (Sample.ref "app" "Address" [])
                 postgres2DbProfile = Ok "jsonb".
Proof.
  split; [reflexivity|].
  exact (proj1 (composite_reference_maps_to_opaque
                  (declResolver Sample.modules) 0 (scopedName "app" "Address") []
                  (DReference (scopedName "app" "Address") [])
                  {| sd_moduleName := "app";
                     decl := Sample.plainDecl "Address"
                               (struct_ {| struct_typeParams := [];
                                           struct_fields :=
                                             [ Sample.field "street" (Sample.prim "String") ] |}) |}
                  postgres2DbProfile eq_refl eq_refl eq_refl eq_refl eq_refl)).
Defined.

Lemma expandsTo_not_enum (resolver : DeclResolver) (te te2 : TypeExpr) (sn : ScopedName)
      (ds : list DecodedTypeExpr) :
  decodeTypeExpr te = Ok (DReference sn ds) ->
  expandAliasOrNewType resolver te = Ok (Some te2) ->
  exists sdecl, resolver sn = Some sdecl /\ isEnumDecl sdecl = false.
Proof.
  intros Hdec Hx. destruct te as [r ps]. destruct r as [p|p|sn'].
  - unfold expandAliasOrNewType, expandTypeAlias, expandNewType in Hx. discriminate.
  - unfold expandAliasOrNewType, expandTypeAlias, expandNewType in Hx. discriminate.
  - destruct (decode_reference_shape _ _ _ Hdec) as [ds' Heq]. injection Heq as <- <-.
    destruct (expandAliasOrNewType_some _ _ _ _ Hx) as (sdecl & body & tparams & Hres & Hb & _).
    exists sdecl. split; [exact Hres|].
    unfold underlyingTypeExpr in Hb. unfold isEnumDecl.
    destruct (type__ (decl sdecl)); try discriminate; reflexivity.
Qed.

(** Expansion is transparent: a type expression that reaches another
    one through [n] expansions of aliases and newtypes maps, with [n]
    more units of fuel, to what the other one maps to; if the other one
    is a primitive, to the profile's type for that primitive. *)
Theorem expansion_is_transparent
        (resolver : DeclResolver) (n : nat) (te te' : TypeExpr) (dbProfile : DbProfile) :
  expandsTo resolver n te te' ->
  (forall fuel, getColumnType1 resolver (n + fuel) te dbProfile
                = getColumnType1 resolver fuel te' dbProfile) /\
  (forall p ps dt fuel,
      te' = mkTypeExpr (primitive p) ps ->
      decodeTypeExpr te' = Ok dt ->
      getColumnType1 resolver (n + S fuel) te dbProfile = Ok (primColumnType dbProfile p)).
Proof.
  intros Hexp.
  assert (Hsame : forall fuel, getColumnType1 resolver (n + fuel) te dbProfile
                               = getColumnType1 resolver fuel te' dbProfile).
  { induction Hexp as [te|n te te2 te3 sn ds Hdec Htemp Hx _ IH]; intros fuel;
      [reflexivity|].
    destruct (expandsTo_not_enum _ _ _ _ _ Hdec Hx) as (sdecl & Hres & Henum).
    cbn [Nat.add].
    rewrite (getColumnType1_reference _ _ _ _ _ _ _ Hdec Hres Htemp), Henum, Hx.
    cbn [bind]. apply IH. }
  split; [exact Hsame|].
  intros p ps dt fuel -> Hdec. rewrite Hsame.
  exact (getColumnType1_primitive resolver fuel p ps dt dbProfile Hdec).
Qed.

Lemma expansion_is_transparent_witness :
  expandsTo (declResolver Sample.modules) 2 (Sample.ref "app" "Email" []) (Sample.prim "String") /\
  getColumnType1 (declResolver Sample.modules) 3 (Sample.ref "app" "Email" []) mssql2DbProfile
  = Ok "nvarchar(max)".
Proof.
  assert (Hexp : expandsTo (declResolver Sample.modules) 2 (Sample.ref "app" "Email" [])
                           (Sample.prim "String")).
  { eapply expandsTo_step; [reflexivity | reflexivity | reflexivity |].
    eapply expandsTo_step; [reflexivity | reflexivity | reflexivity |].
    apply expandsTo_here. }
  split; [exact Hexp|].
  exact (proj2 (expansion_is_transparent (declResolver Sample.modules) 2 _ _ mssql2DbProfile Hexp)
               "String" [] (DPrim "String") 0 eq_refl eq_refl).
Defined.

(** The resolver is asked before anything else is looked at: a
    reference to a name that is not declared makes the mapper throw,
    also when the name is one of the temporal names, and
    [getColumnType] throws the same for such a reference that is not a
    Maybe wrapper. *)
Theorem undeclared_reference_throws
        (snakeCase : string -> string) (resolver : DeclResolver) (fuel : nat)
        (te : TypeExpr) (sn : ScopedName) (ds : list DecodedTypeExpr) (dbProfile : DbProfile) :
  decodeTypeExpr te = Ok (DReference sn ds) ->
  resolver sn = None ->
  getColumnType1 resolver (S fuel) te dbProfile
  = Throw (UnresolvedName (moduleName sn) (name sn)) /\
  (scopedNamesEqual sn MAYBE = false ->
   getColumnType snakeCase resolver (S fuel) te dbProfile
   = Throw (UnresolvedName (moduleName sn) (name sn))).
Proof.
  intros Hdec Hres.
  assert (H1 : getColumnType1 resolver (S fuel) te dbProfile
               = Throw (UnresolvedName (moduleName sn) (name sn))).
  { rewrite getColumnType1_S, Hdec. cbn [bind]. unfold resolve. rewrite Hres. reflexivity. }
  split; [exact H1|].
  intros Hmaybe. unfold getColumnType. rewrite Hdec. cbn [bind isNullableWrapper].
  rewrite Hmaybe, H1. reflexivity.
Qed.

Lemma undeclared_reference_throws_witness :
  decodeTypeExpr (mkTypeExpr (reference INSTANT) []) = Ok (DReference INSTANT []) /\
  declResolver [Sample.app] INSTANT = None /\
  getColumnType1 (declResolver [Sample.app]) 1 (mkTypeExpr (reference INSTANT) [])
                 postgresDbProfile
  = Throw (UnresolvedName "common" "Instant").
Proof.
  split; [reflexivity|]. split; [reflexivity|].
  exact (proj1 (undeclared_reference_throws
                  Sample.snakeCase (declResolver [Sample.app]) 0
                  (mkTypeExpr (reference INSTANT) []) INSTANT [] postgresDbProfile
                  eq_refl eq_refl)).
Defined.

(** [getForeignKeyRef] throws in three cases only: the type expression
    cannot be decoded, it is a database key without a type parameter,
    or it is a database key whose first parameter refers to a name that
    is not declared. *)
Theorem foreign_key_ref_throws_iff
        (snakeCase : string -> string) (resolver : DeclResolver) (te : TypeExpr) (e : exn) :
  getForeignKeyRef snakeCase resolver te = Throw e <->
  decodeTypeExpr te = Throw e \/
  (decodeTypeExpr te = Ok (DReference DB_KEY []) /\ e = TypeError) \/
  (exists sn0 ds0 rest,
      decodeTypeExpr te = Ok (DReference DB_KEY (DReference sn0 ds0 :: rest)) /\
      resolver sn0 = None /\
      e = UnresolvedName (moduleName sn0) (name sn0)).
Proof.
  unfold getForeignKeyRef. split.
  - destruct (decodeTypeExpr te) as [dtype|e'|]; cbn [bind]; try discriminate.
    + destruct dtype as [k|p|d|sn ds]; try discriminate.
      destruct (scopedNamesEqual sn DB_KEY) eqn:Hkey; try discriminate.
      apply scopedNamesEqual_eq in Hkey. subst sn.
      destruct ds as [|[k|p|d|sn0 ds0] rest]; try discriminate.
      * intros [= <-]. right. left. split; reflexivity.
      * unfold resolve. destruct (resolver sn0) as [sdecl|] eqn:Hres;
          cbn [fromOption bind]; try discriminate.
        intros [= <-]. right. right. exists sn0, ds0, rest. repeat split. exact Hres.
    + intros [= <-]. left. reflexivity.
  - intros [Hdec|[[Hdec ->]|(sn0 & ds0 & rest & Hdec & Hres & ->)]]; rewrite Hdec; cbn [bind].
    + reflexivity.
    + rewrite scopedNamesEqual_refl. reflexivity.
    + rewrite scopedNamesEqual_refl. unfold resolve. rewrite Hres. reflexivity.
Qed.

(** A nullable wrapper around the dedicated nullable wrapper is not
    unwrapped twice: the column gets what the profile returns for the
    kind "Nullable" (the default opaque type with the three profiles of
    the source), without the qualifier and without a foreign key. *)
Theorem nullable_of_nullable_is_opaque
        (snakeCase : string -> string) (resolver : DeclResolver) (fuel : nat)
        (te inner : TypeExpr) (rest : list TypeExpr) (dtype d : DecodedTypeExpr)
        (dbProfile : DbProfile) :
  decodeTypeExpr te = Ok dtype ->
  isNullableWrapper dtype = true ->
  parameters te = inner :: rest ->
  decodeTypeExpr inner = Ok (DNullable d) ->
  getColumnType snakeCase resolver (S fuel) te dbProfile
  = Ok {| sqltype := primColumnType dbProfile "Nullable"; fkey := None |} /\
  forall tbl dflt, In (dbProfile, tbl, dflt) shippedProfiles ->
                   primColumnType dbProfile "Nullable" = dflt.
Proof.
  intros Hdec Hnull Hps Hinner. split.
  - unfold getColumnType, parameter0, getForeignKeyRef.
    rewrite Hdec. cbn [bind]. rewrite Hnull, Hps. cbn [nth_error fromOption bind].
    rewrite getColumnType1_S, Hinner. reflexivity.
  - intros tbl dflt Hin. rewrite (shippedProfiles_switch _ _ _ Hin).
    apply switch_unmapped. simpl in Hin.
    destruct Hin as [H|[H|[H|[]]]]; injection H as _ <- _; simpl; intuition discriminate.
Qed.

Lemma nullable_of_nullable_is_opaque_witness :
  decodeTypeExpr (Sample.maybe (Sample.nullable (Sample.prim "String")))
  = Ok (DReference MAYBE [DNullable (DPrim "String")]) /\
  getColumnType Sample.snakeCase (declResolver Sample.modules) 1
                (Sample.maybe (Sample.nullable (Sample.prim "String"))) postgresDbProfile
  = Ok {| sqltype := "json"; fkey := None |}.
Proof.
  split; [reflexivity|].
  exact (proj1 (nullable_of_nullable_is_opaque
                  Sample.snakeCase (declResolver Sample.modules) 0
                  (Sample.maybe (Sample.nullable (Sample.prim "String")))
                  (Sample.nullable (Sample.prim "String")) []
                  (DReference MAYBE [DNullable (DPrim "String")]) (DPrim "String")
                  postgresDbProfile eq_refl eq_refl eq_refl eq_refl)).
Defined.

Lemma decode_reference_cons (sn : ScopedName) (p : TypeExpr) (ps : list TypeExpr)
      (dt : DecodedTypeExpr) :
  decodeTypeExpr (mkTypeExpr (reference sn) (p :: ps)) = Ok dt ->
  exists d ds, decodeTypeExpr p = Ok d /\ dt = DReference sn (d :: ds).
Proof.
  cbn [decodeTypeExpr]. destruct (decodeTypeExpr p) as [d| |]; cbn [bind]; try discriminate.
  match goal with |- bind (bind ?r _) _ = _ -> _ => destruct r as [ds| |] end;
    cbn [bind]; try discriminate.
  intros [= <-]. exists d, ds. split; reflexivity.
Qed.

Lemma decode_key_shape (sn sn0 : ScopedName) (ps0 rest : list TypeExpr) (dt : DecodedTypeExpr) :
  decodeTypeExpr (mkTypeExpr (reference sn) (mkTypeExpr (reference sn0) ps0 :: rest)) = Ok dt ->
  exists ds0 drest, dt = DReference sn (DReference sn0 ds0 :: drest).
Proof.
  intros Hdec. destruct (decode_reference_cons _ _ _ _ Hdec) as (d & ds & H0 & ->).
  destruct (decode_reference_shape _ _ _ H0) as [ds0 ->].
  exists ds0, ds. reflexivity.
Qed.

(** The statement of a foreign key names the referenced table as its
    [create table] statement does: for a collected table that the
    resolver finds under its scoped name, the target of a database key
    of that name is the name of the table, with the column "id". *)
Theorem foreign_key_targets_created_table
        (snakeCase : string -> string) (resolver : DeclResolver) (modules : list Module)
        (t : DbTable) (ps0 rest : list TypeExpr) (dt : DecodedTypeExpr) :
  In t (collectDbTables snakeCase modules) ->
  resolver (scopedNameOf (dbt_scopedDecl t)) = Some (dbt_scopedDecl t) ->
  decodeTypeExpr (mkTypeExpr (reference DB_KEY)
                             (mkTypeExpr (reference (scopedNameOf (dbt_scopedDecl t))) ps0
                              :: rest)) = Ok dt ->
  getForeignKeyRef snakeCase resolver
                   (mkTypeExpr (reference DB_KEY)
                               (mkTypeExpr (reference (scopedNameOf (dbt_scopedDecl t))) ps0
                                :: rest))
  = Ok (Some {| table := dbt_name t; column := "id" |}).
Proof.
  intros Hin Hres Hdec.
  destruct (decode_key_shape _ _ _ _ _ Hdec) as (ds0 & drest & ->).
  rewrite (foreign_key_ref_iff_helper snakeCase resolver _ _ ds0 drest _ Hdec Hres).
  apply (Permutation_in _ (collectDbTables_perm snakeCase modules)) in Hin.
  apply in_flat_map in Hin. destruct Hin as (sdecl & _ & Ht).
  destruct (dbTableOfDecl_In _ _ _ Ht) as (Hsd & _ & _ & _ & Hname).
  rewrite Hname, Hsd. reflexivity.
Qed.

Lemma foreign_key_targets_created_table_witness :
  Forall (fun t =>
            In t (collectDbTables Sample.snakeCase Sample.modules) /\
            getForeignKeyRef Sample.snakeCase (declResolver Sample.modules) (keyOf t)
            = Ok (Some {| table := dbt_name t; column := "id" |}))
         sampleTables.
Proof.
  assert (Hcollect : collectDbTables Sample.snakeCase Sample.modules = sampleTables)
    by (vm_compute; reflexivity).
  apply Forall_forall. intros t Ht.
  assert (Hin : In t (collectDbTables Sample.snakeCase Sample.modules))
    by (rewrite Hcollect; exact Ht).
  split; [exact Hin|].
  refine (foreign_key_targets_created_table
            Sample.snakeCase (declResolver Sample.modules) Sample.modules t [] []
            (DReference DB_KEY [DReference (scopedNameOf (dbt_scopedDecl t)) []]) Hin _ _).
  - destruct Ht as [<-|[<-|[]]]; vm_compute; reflexivity.
  - reflexivity.
Defined.

(** * The command line and the profiles *)

Lemma profiles_distinct :
  postgresDbProfile <> postgres2DbProfile /\ postgresDbProfile <> mssql2DbProfile /\
  postgres2DbProfile <> mssql2DbProfile.
Proof.
  repeat split; intros H.
  - apply (f_equal (fun p => primColumnType p "Json")) in H. vm_compute in H. discriminate.
  - apply (f_equal idColumnType) in H. discriminate.
  - apply (f_equal idColumnType) in H. discriminate.
Qed.

(** The [sql] command selects the mssql profile exactly when --mssql is
    given, the revised postgres profile exactly when --postgres-v2 is
    given without --mssql, and the default one otherwise; the flag
    --postgres is not read.  A non-empty --outputdir decides the output
    file, whatever --outfile says. *)
Theorem sql_command_selects_profile (adlFiles : list string) (cmd : SqlOptions) :
  (params_dbProfile (sqlCommandParams adlFiles cmd) = mssql2DbProfile
   <-> opt_mssql cmd = true) /\
  (params_dbProfile (sqlCommandParams adlFiles cmd) = postgres2DbProfile
   <-> opt_mssql cmd = false /\ opt_postgresV2 cmd = true) /\
  (params_dbProfile (sqlCommandParams adlFiles cmd) = postgresDbProfile
   <-> opt_mssql cmd = false /\ opt_postgresV2 cmd = false) /\
  (forall flag,
      sqlCommandParams adlFiles
        {| opt_searchdir := opt_searchdir cmd; opt_outfile := opt_outfile cmd;
           opt_outputdir := opt_outputdir cmd; opt_postgres := flag;
           opt_postgresV2 := opt_postgresV2 cmd; opt_mssql := opt_mssql cmd |}
      = sqlCommandParams adlFiles cmd) /\
  (forall dir, opt_outputdir cmd = Some dir -> dir <> "" ->
               params_outfile (sqlCommandParams adlFiles cmd) = dir ++ "/create.sql") /\
  (opt_outputdir cmd = None \/ opt_outputdir cmd = Some "" ->
   params_outfile (sqlCommandParams adlFiles cmd) = opt_outfile cmd).
Proof.
  destruct profiles_distinct as (H12 & H13 & H23).
  unfold sqlCommandParams; cbn [params_dbProfile params_outfile].
  split; [|split; [|split; [|split; [|split]]]].
  - destruct (opt_mssql cmd), (opt_postgresV2 cmd); split; intros H;
      try reflexivity; try discriminate; exfalso; congruence.
  - destruct (opt_mssql cmd), (opt_postgresV2 cmd); split; intros H;
      try (split; reflexivity); try reflexivity;
      try (destruct H; discriminate); exfalso; congruence.
  - destruct (opt_mssql cmd), (opt_postgresV2 cmd); split; intros H;
      try (split; reflexivity); try reflexivity;
      try (destruct H; discriminate); exfalso; congruence.
  - intros flag. reflexivity.
  - intros dir -> Hne. destruct (String.eqb_spec dir ""); [contradiction | reflexivity].
  - intros [->| ->]; reflexivity.
Qed.

(** The revised postgres profile is the default one with "jsonb" in
    place of "json": the id and enum column types agree, and so does
    the type of every primitive kind that the default profile does not
    map to "json". *)
Theorem postgres_profiles_differ_in_json_only (ptype : string) :
  idColumnType postgres2DbProfile = idColumnType postgresDbProfile /\
  enumColumnType postgres2DbProfile = enumColumnType postgresDbProfile /\
  primColumnType postgres2DbProfile ptype
  = (if primColumnType postgresDbProfile ptype =? "json" then "jsonb"
     else primColumnType postgresDbProfile ptype).
Proof.
  split; [reflexivity|]. split; [reflexivity|].
  cbn [primColumnType postgresDbProfile postgres2DbProfile].
  unfold postgresPrimTable, postgres2PrimTable. cbn [switch].
  repeat (destruct (ptype =? _); [reflexivity|]). reflexivity.
Qed.

(** * Further properties of the generated text *)

(** A column group of an index, a uniqueness constraint or a primary
    key may name a field or anything else: the name of a field of the
    table is replaced by the column name of the first field of that
    name, and a name that no field has is passed on as it is. *)
Theorem findColName_first_field_or_itself
        (snakeCase : string -> string) (t : DbTable) (s : string) :
  (forall before f after,
      struct_fields (dbt_struct t) = (before ++ f :: after)%list ->
      (forall g, In g before -> field_name g <> s) ->
      field_name f = s ->
      findColName snakeCase t s = getColumnName snakeCase f) /\
  ((forall g, In g (struct_fields (dbt_struct t)) -> field_name g <> s) ->
   findColName snakeCase t s = s).
Proof.
  unfold findColName. split.
  - intros before f after -> Hbefore Hf.
    induction before as [|g before IH]; cbn [app findColNameIn].
    + rewrite Hf, String.eqb_refl. reflexivity.
    + destruct (String.eqb_spec (field_name g) s) as [Heq|_].
      * exfalso. apply (Hbefore g); [left; reflexivity | exact Heq].
      * apply IH. intros h Hh. apply Hbefore. right. exact Hh.
  - induction (struct_fields (dbt_struct t)) as [|g fields IH]; intros Hnone;
      cbn [findColNameIn]; [reflexivity|].
    destruct (String.eqb_spec (field_name g) s) as [Heq|_].
    + exfalso. apply (Hnone g); [left; reflexivity | exact Heq].
    + apply IH. intros h Hh. apply Hnone. right. exact Hh.
Qed.

Lemma spaces_length (n : nat) : String.length (spaces n) = n.
Proof. induction n as [|n IH]; simpl; [reflexivity | rewrite IH; reflexivity]. Qed.

(** [padEnd] keeps the string as a prefix, never shortens it, and
    brings it to the target length exactly when it was shorter. *)
Theorem padEnd_length (targetLength : nat) (s : string) :
  String.length (padEnd targetLength s) = Nat.max targetLength (String.length s) /\
  String.prefix s (padEnd targetLength s) = true /\
  (targetLength <= String.length s -> padEnd targetLength s = s).
Proof.
  unfold padEnd. split; [|split].
  - rewrite length_append, spaces_length. lia.
  - apply prefix_append.
  - intros Hle. replace (targetLength - String.length s) with 0 by lia.
    cbn [spaces]. induction s as [|c s IH]; simpl; [reflexivity|].
    f_equal. clear Hle IH. induction s as [|d s IH]; simpl; [reflexivity | f_equal; exact IH].
Qed.

Lemma append_assoc (a b c : string) : (a ++ b) ++ c = a ++ (b ++ c).
Proof. induction a as [|x a IH]; simpl; [reflexivity | rewrite IH; reflexivity]. Qed.

(** The comments of a table are aligned: on a line whose code, with its
    comma, has at most 36 characters, the comment marker starts 38
    characters into the line; a longer code is followed by the marker
    directly.  A line whose comment is empty or absent is the code
    alone. *)
Theorem renderLine_aligns_comment (isLast : bool) (l : Line) :
  let text := if isLast then code l else code l ++ "," in
  (forall c, comment l = Some c -> c <> "" ->
             exists padded,
               renderLine isLast l = "  " ++ padded ++ " -- " ++ c ++ newline /\
               String.prefix text padded = true /\
               String.length padded = Nat.max 36 (String.length text)) /\
  (comment l = None \/ comment l = Some "" ->
   renderLine isLast l = "  " ++ text ++ newline).
Proof.
  cbv zeta. unfold renderLine. split.
  - intros c -> Hne. destruct (String.eqb_spec c "") as [Heq|_]; [contradiction|].
    exists (padEnd 36 (if isLast then code l else code l ++ ",")).
    destruct (padEnd_length 36 (if isLast then code l else code l ++ ",")) as (Hlen & Hpre & _).
    split; [|split; [exact Hpre | exact Hlen]].
    cbn [append]. rewrite !append_assoc. reflexivity.
  - intros [-> | ->]; reflexivity.
Qed.

Lemma renderLine_aligns_comment_witness :
  comment {| code := "email text not null"; comment := Some "Email" |} = Some "Email" /\
  "Email" <> "" /\
  exists padded,
    renderLine false {| code := "email text not null"; comment := Some "Email" |}
    = "  " ++ padded ++ " -- " ++ "Email" ++ newline /\
    String.length padded = 36.
Proof.
  assert (Hne : "Email" <> "") by discriminate.
  split; [reflexivity|]. split; [exact Hne|].
  destruct (proj1 (renderLine_aligns_comment
                     false {| code := "email text not null"; comment := Some "Email" |})
                  "Email" eq_refl Hne) as (padded & Heq & _ & Hlen).
  exists padded. split; [exact Heq | exact Hlen].
Defined.

(** The lines of a table are separated by commas: every line but the
    last is rendered with a comma after its code, the last one
    without. *)
Theorem writeLines_commas (lines : list Line) (l : Line) (st : GenState) :
  written (writeLines (lines ++ [l]) st)
  = (written st ++ map (renderLine false) lines ++ [renderLine true l])%list /\
  constraints (writeLines (lines ++ [l]) st) = constraints st /\
  allExtraSql (writeLines (lines ++ [l]) st) = allExtraSql st.
Proof.
  destruct st as [w cs x]. rewrite writeLines_layout. cbn [written constraints allExtraSql].
  repeat split. f_equal.
  induction lines as [|k lines IH]; [reflexivity|].
  cbn [app renderLines map]. rewrite IH.
  destruct lines; reflexivity.
Qed.

Lemma prefix_split (p s : string) :
  String.prefix p s = true -> s = p ++ dropChars (String.length p) s.
Proof.
  revert s. induction p as [|a p IH]; intros s; [intros _; destruct s; reflexivity|].
  destruct s as [|b s]; simpl; [discriminate|].
  destruct (ascii_dec a b) as [<-|_]; [|discriminate].
  intros H. rewrite <- (IH s H). reflexivity.
Qed.

Lemma prefix_of_append (p s b : string) : s = p ++ b -> String.prefix p s = true.
Proof. intros ->. apply prefix_append. Qed.

(** [replace] with a string pattern changes the first occurrence of
    the pattern and nothing else: a string that does not contain the
    pattern is returned as it is, and otherwise the string is cut at
    its earliest occurrence of the pattern, which is exchanged for the
    replacement. *)
Theorem replaceFirst_first_occurrence (pattern replacement s : string) :
  (contains pattern s = false -> replaceFirst pattern replacement s = s) /\
  (contains pattern s = true ->
   exists before after,
     s = before ++ pattern ++ after /\
     replaceFirst pattern replacement s = before ++ replacement ++ after /\
     forall before' after',
       s = before' ++ pattern ++ after' -> String.length before <= String.length before').
Proof.
  split.
  - induction s as [|c s IH]; cbn [contains replaceFirst]; intros H;
      apply orb_false_iff in H; destruct H as [Hpre Hrest]; rewrite Hpre.
    + reflexivity.
    + rewrite (IH Hrest). reflexivity.
  - induction s as [|c s IH]; cbn [contains replaceFirst]; intros H.
    + rewrite orb_false_r in H. rewrite H.
      exists "", (dropChars (String.length pattern) "").
      split; [exact (prefix_split _ _ H)|]. split; [reflexivity|]. intros; simpl; lia.
    + destruct (String.prefix pattern (String c s)) eqn:Hpre.
      * exists "", (dropChars (String.length pattern) (String c s)).
        split; [exact (prefix_split _ _ Hpre)|]. split; [reflexivity|]. intros; simpl; lia.
      * cbn [orb] in H. destruct (IH H) as (before & after & Hs & Hrep & Hmin).
        exists (String c before), after.
        split; [simpl; rewrite <- Hs; reflexivity|].
        split; [simpl; rewrite Hrep; reflexivity|].
        intros before' after' Heq. destruct before' as [|c' before'].
        -- simpl in Heq. rewrite (prefix_of_append _ _ _ Heq) in Hpre. discriminate.
        -- simpl in Heq. injection Heq as _ Heq. specialize (Hmin _ _ Heq). simpl. lia.
Qed.

(** A type comment that mentions neither "DbKey" nor "Instant" is left
    as it is. *)
Theorem tweakTypeComment_unchanged (c : string) :
  contains "DbKey" c = false -> contains "Instant" c = false ->
  tweakTypeComment c = c.
Proof.
  intros Hkey Hinstant. unfold tweakTypeComment.
  rewrite (proj1 (replaceFirst_first_occurrence "DbKey" "common.db.DbKey" c) Hkey).
  exact (proj1 (replaceFirst_first_occurrence "Instant" "common.Instant" c) Hinstant).
Qed.

Lemma tweakTypeComment_unchanged_witness :
  contains "DbKey" "Maybe<String>" = false /\ contains "Instant" "Maybe<String>" = false /\
  tweakTypeComment "Maybe<String>" = "Maybe<String>".
Proof.
  split; [reflexivity|]. split; [reflexivity|].
  exact (tweakTypeComment_unchanged "Maybe<String>" eq_refl eq_refl).
Defined.

Lemma contains_unfold (pattern s : string) :
  contains pattern s
  = String.prefix pattern s
    || match s with
       | EmptyString => false
       | String _ s' => contains pattern s'
       end.
Proof. destruct s; reflexivity. Qed.

Lemma contains_occurrence (pattern before after : string) :
  contains pattern (before ++ pattern ++ after) = true.
Proof.
  induction before as [|c before IH].
  - rewrite contains_unfold. cbn [append]. rewrite prefix_append. reflexivity.
  - rewrite contains_unfold. cbn [append]. rewrite IH. apply orb_true_r.
Qed.

Lemma append_same_length (a : string) :
  forall b x y, a ++ x = b ++ y -> String.length a = String.length b -> a = b /\ x = y.
Proof.
  induction a as [|c a IH]; intros [|d b] x y; simpl; try discriminate.
  - intros H _. split; [reflexivity | exact H].
  - intros [= <- H] [= Hlen]. destruct (IH b x y H Hlen) as [-> ->]. split; reflexivity.
Qed.

Lemma append_inv_head_text (p x y : string) : p ++ x = p ++ y -> x = y.
Proof. induction p as [|c p IH]; simpl; [auto | intros [= H]; exact (IH H)]. Qed.

(** An earliest occurrence is one place only. *)
Lemma firstOccurrenceReplaced_functional (pattern replacement s s1 s2 : string) :
  firstOccurrenceReplaced pattern replacement s s1 ->
  firstOccurrenceReplaced pattern replacement s s2 ->
  s1 = s2.
Proof.
  intros [[Hno1 ->]|(b1 & a1 & Hs1 & -> & Hmin1)] [[Hno2 ->]|(b2 & a2 & Hs2 & -> & Hmin2)].
  - reflexivity.
  - rewrite Hs2, contains_occurrence in Hno1. discriminate.
  - rewrite Hs1, contains_occurrence in Hno2. discriminate.
  - assert (Hlen : String.length b1 = String.length b2).
    { apply Nat.le_antisymm; [exact (Hmin1 b2 a2 Hs2) | exact (Hmin2 b1 a1 Hs1)]. }
    rewrite Hs1 in Hs2. destruct (append_same_length _ _ _ _ Hs2 Hlen) as [-> Hrest].
    apply append_inv_head_text in Hrest. subst a2. reflexivity.
Qed.

Lemma replaceFirst_firstOccurrenceReplaced (pattern replacement s : string) :
  firstOccurrenceReplaced pattern replacement s (replaceFirst pattern replacement s).
Proof.
  destruct (replaceFirst_first_occurrence pattern replacement s) as [Hno Hyes].
  destruct (contains pattern s) eqn:Hc.
  - right. destruct (Hyes eq_refl) as (before & after & Hs & Hrep & Hmin).
    exists before, after. repeat split; assumption.
  - left. split; [exact Hc | exact (Hno eq_refl)].
Qed.

(** [tweakTypeComment] qualifies the earliest "DbKey" of the comment as
    "common.db.DbKey" and then the earliest "Instant" of the result as
    "common.Instant", each only if there is one; nothing else is
    changed, and these two steps determine the result. *)
Theorem tweakTypeComment_qualifies_first_occurrences (c : string) :
  (exists c1,
      firstOccurrenceReplaced "DbKey" "common.db.DbKey" c c1 /\
      firstOccurrenceReplaced "Instant" "common.Instant" c1 (tweakTypeComment c)) /\
  (forall c1 c2,
      firstOccurrenceReplaced "DbKey" "common.db.DbKey" c c1 ->
      firstOccurrenceReplaced "Instant" "common.Instant" c1 c2 ->
      c2 = tweakTypeComment c).
Proof.
  unfold tweakTypeComment. split.
  - exists (replaceFirst "DbKey" "common.db.DbKey" c).
    split; apply replaceFirst_firstOccurrenceReplaced.
  - intros c1 c2 H1 H2.
    assert (Hc1 : c1 = replaceFirst "DbKey" "common.db.DbKey" c).
    { exact (firstOccurrenceReplaced_functional _ _ _ _ _ H1
               (replaceFirst_firstOccurrenceReplaced _ _ _)). }
    subst c1.
    exact (firstOccurrenceReplaced_functional _ _ _ _ _ H2
             (replaceFirst_firstOccurrenceReplaced _ _ _)).
Qed.

(** * Further properties of the generator *)

Lemma dbTableOfDecl_length (snakeCase : string -> string) (sdecl : ScopedDecl) :
  List.length (dbTableOfDecl snakeCase sdecl) = if isTableDecl sdecl then 1 else 0.
Proof.
  unfold dbTableOfDecl, isTableDecl.
  destruct (type__ (decl sdecl)); try reflexivity.
  destruct (getAnnotation (decl_annotations (decl sdecl)) DB_TABLE) as [[|s|o]|]; reflexivity.
Qed.

Lemma dbTables_length (snakeCase : string -> string) (l : list ScopedDecl) :
  List.length (flat_map (dbTableOfDecl snakeCase) l) = List.length (filter isTableDecl l).
Proof.
  induction l as [|sdecl l IH]; [reflexivity|].
  cbn [flat_map filter]. rewrite length_app, dbTableOfDecl_length, IH.
  destruct (isTableDecl sdecl); reflexivity.
Qed.

Section MappedProofs.

Variable snakeCase : string -> string.
Variable resolver : DeclResolver.
Variable fuel : nat.
Variable dbProfile : DbProfile.

Lemma mappedFields_ok_iff (fields : list Field) :
  (exists cols, mappedFields snakeCase resolver fuel dbProfile fields = Ok cols) <->
  (forall f, In f fields ->
             exists c, getColumnType snakeCase resolver fuel (field_typeExpr f) dbProfile = Ok c).
Proof.
  induction fields as [|f fields IH]; cbn [mappedFields].
  - split; [intros _ f [] | intros _; exists []; reflexivity].
  - split.
    + intros [cols Hcols] g [<-|Hg].
      * destruct (getColumnType snakeCase resolver fuel (field_typeExpr f) dbProfile) as [c| |];
          cbn [bind] in Hcols; try discriminate. exists c. reflexivity.
      * apply (proj1 IH); [|exact Hg].
        destruct (getColumnType snakeCase resolver fuel (field_typeExpr f) dbProfile) as [c| |];
          cbn [bind] in Hcols; try discriminate.
        destruct (mappedFields snakeCase resolver fuel dbProfile fields) as [cs| |];
          cbn [bind] in Hcols; try discriminate. exists cs. reflexivity.
    + intros Hall. destruct (Hall f (or_introl eq_refl)) as [c Hc]. rewrite Hc. cbn [bind].
      destruct (proj2 IH (fun g Hg => Hall g (or_intror Hg))) as [cs Hcs]. rewrite Hcs.
      exists ((f, c) :: cs). reflexivity.
Qed.

Lemma mappedTables_ok_iff (dbTables : list DbTable) :
  (exists mts, mappedTables snakeCase resolver fuel dbProfile dbTables = Ok mts) <->
  (forall t f, In t dbTables -> In f (struct_fields (dbt_struct t)) ->
               exists c, getColumnType snakeCase resolver fuel (field_typeExpr f) dbProfile
                         = Ok c).
Proof.
  induction dbTables as [|t dbTables IH]; cbn [mappedTables].
  - split; [intros _ t f [] | intros _; exists []; reflexivity].
  - split.
    + intros [mts Hmts] u f [<-|Hu] Hf.
      * apply (proj1 (mappedFields_ok_iff (struct_fields (dbt_struct t)))); [|exact Hf].
        destruct (mappedFields snakeCase resolver fuel dbProfile (struct_fields (dbt_struct t)))
          as [cols| |]; cbn [bind] in Hmts; try discriminate. exists cols. reflexivity.
      * apply (proj1 IH) with (t := u); [|exact Hu | exact Hf].
        destruct (mappedFields snakeCase resolver fuel dbProfile (struct_fields (dbt_struct t)))
          as [cols| |]; cbn [bind] in Hmts; try discriminate.
        destruct (mappedTables snakeCase resolver fuel dbProfile dbTables) as [ms| |];
          cbn [bind] in Hmts; try discriminate. exists ms. reflexivity.
    + intros Hall.
      destruct (proj2 (mappedFields_ok_iff (struct_fields (dbt_struct t)))
                      (fun f Hf => Hall t f (or_introl eq_refl) Hf)) as [cols Hcols].
      rewrite Hcols. cbn [bind].
      destruct (proj2 IH (fun u f Hu Hf => Hall u f (or_intror Hu) Hf)) as [ms Hms].
      rewrite Hms. exists ((t, cols) :: ms). reflexivity.
Qed.

Lemma mappedFields_fst (fields : list Field) :
  forall cols, mappedFields snakeCase resolver fuel dbProfile fields = Ok cols ->
               map fst cols = fields /\
               Forall (fun fc => getColumnType snakeCase resolver fuel
                                               (field_typeExpr (fst fc)) dbProfile
                                 = Ok (snd fc)) cols.
Proof.
  induction fields as [|f fields IH]; intros cols; cbn [mappedFields].
  - intros [= <-]. split; [reflexivity | constructor].
  - destruct (getColumnType snakeCase resolver fuel (field_typeExpr f) dbProfile) as [c| |] eqn:Hc;
      cbn [bind]; try discriminate.
    destruct (mappedFields snakeCase resolver fuel dbProfile fields) as [cs| |];
      cbn [bind]; try discriminate.
    intros [= <-]. destruct (IH cs eq_refl) as [Hfst Hall].
    split; [cbn [map fst]; rewrite Hfst; reflexivity|].
    constructor; [exact Hc | exact Hall].
Qed.

End MappedProofs.

(** Generation succeeds exactly when every field of every collected
    table maps to a column: one field that cannot be mapped makes the
    whole run fail. *)
Theorem generation_succeeds_iff_fields_map
        (snakeCase : string -> string) (typeExprToStringUnscoped : TypeExpr -> string)
        (fuel : nat) (loadedAdl : LoadedAdl) (dbProfile : DbProfile) :
  (exists out,
      generateSqlSchema snakeCase typeExprToStringUnscoped fuel loadedAdl dbProfile = Ok out) <->
  (forall t f,
      In t (collectDbTables snakeCase (adl_modules loadedAdl)) ->
      In f (struct_fields (dbt_struct t)) ->
      exists c, getColumnType snakeCase (adl_resolver loadedAdl) fuel (field_typeExpr f)
                              dbProfile = Ok c).
Proof.
  rewrite <- mappedTables_ok_iff, generateSqlSchema_layout.
  destruct (mappedTables snakeCase (adl_resolver loadedAdl) fuel dbProfile
                         (collectDbTables snakeCase (adl_modules loadedAdl))) as [mts|e|];
    cbn [bind]; split; intros [x Hx]; try discriminate; eexists; reflexivity.
Qed.

(** Without a struct that carries a table annotation the generated
    file is the three header lines, with no module named in the first
    one; this needs no fuel and no resolver. *)
Theorem no_tables_gives_header_only
        (snakeCase : string -> string) (typeExprToStringUnscoped : TypeExpr -> string)
        (fuel : nat) (loadedAdl : LoadedAdl) (dbProfile : DbProfile) :
  (forall sdecl, In sdecl (forEachDecl (adl_modules loadedAdl)) -> isTableDecl sdecl = false) ->
  generateSqlSchema snakeCase typeExprToStringUnscoped fuel loadedAdl dbProfile
  = Ok [ "-- Schema auto-generated from adl modules: " ++ newline;
         "--" ++ newline;
         "-- column comments show original ADL types" ++ newline ].
Proof.
  intros Hnone.
  assert (Hempty : collectDbTables snakeCase (adl_modules loadedAdl) = []).
  { apply length_zero_iff_nil.
    rewrite (Permutation_length (collectDbTables_perm snakeCase _)), dbTables_length.
    induction (forEachDecl (adl_modules loadedAdl)) as [|sdecl l IH]; [reflexivity|].
    cbn [filter]. rewrite (Hnone sdecl (or_introl eq_refl)).
    apply IH. intros s Hs. apply Hnone. right. exact Hs. }
  rewrite generateSqlSchema_layout, Hempty. reflexivity.
Qed.

Lemma no_tables_gives_header_only_witness :
  (forall sdecl,
      In sdecl (forEachDecl [Sample.sysTypes; Sample.commonDb; Sample.common]) ->
      isTableDecl sdecl = false) /\
  generateSqlSchema Sample.snakeCase Sample.typeExprToStringUnscoped 0
                    {| adl_modules := [Sample.sysTypes; Sample.commonDb; Sample.common];
                       adl_resolver := fun _ => None |}
                    mssql2DbProfile
  = Ok [ "-- Schema auto-generated from adl modules: " ++ newline;
         "--" ++ newline;
         "-- column comments show original ADL types" ++ newline ].
Proof.
  assert (Hnone : forall sdecl,
             In sdecl (forEachDecl [Sample.sysTypes; Sample.commonDb; Sample.common]) ->
             isTableDecl sdecl = false).
  { intros sdecl Hin. cbn in Hin.
    repeat (destruct Hin as [<-|Hin]; [reflexivity|]). destruct Hin. }
  split; [exact Hnone|].
  exact (no_tables_gives_header_only
           Sample.snakeCase Sample.typeExprToStringUnscoped 0
           {| adl_modules := [Sample.sysTypes; Sample.commonDb; Sample.common];
              adl_resolver := fun _ => None |}
           mssql2DbProfile Hnone).
Defined.

(** Every struct with a table annotation gets one [create table]
    statement, and nothing else does: the generated file holds as many
    of them as the modules hold such structs. *)
Theorem one_create_table_per_annotated_struct
        (snakeCase : string -> string) (typeExprToStringUnscoped : TypeExpr -> string)
        (fuel : nat) (loadedAdl : LoadedAdl) (dbProfile : DbProfile) (out : list string) :
  generateSqlSchema snakeCase typeExprToStringUnscoped fuel loadedAdl dbProfile = Ok out ->
  List.length (filter isCreateTable out)
  = List.length (filter isTableDecl (forEachDecl (adl_modules loadedAdl))) /\
  Permutation (collectDbTables snakeCase (adl_modules loadedAdl))
              (flat_map (dbTableOfDecl snakeCase) (forEachDecl (adl_modules loadedAdl))).
Proof.
  intros Hout. split; [|apply collectDbTables_perm].
  rewrite (generateSqlSchema_createTable _ _ _ _ _ _ Hout), length_map.
  rewrite (Permutation_length (collectDbTables_perm snakeCase _)). apply dbTables_length.
Qed.

Lemma one_create_table_per_annotated_struct_witness :
  generateSqlSchema Sample.snakeCase Sample.typeExprToStringUnscoped 10 Sample.loadedWithCrm
                    postgresDbProfile = Ok Sample.schemaWithCrm /\
  List.length (filter isCreateTable Sample.schemaWithCrm) = 3.
Proof.
  assert (Hrun : generateSqlSchema Sample.snakeCase Sample.typeExprToStringUnscoped 10
                                   Sample.loadedWithCrm postgresDbProfile
                 = Ok Sample.schemaWithCrm) by (vm_compute; reflexivity).
  split; [exact Hrun|].
  rewrite (proj1 (one_create_table_per_annotated_struct
                    Sample.snakeCase Sample.typeExprToStringUnscoped 10 Sample.loadedWithCrm
                    postgresDbProfile Sample.schemaWithCrm Hrun)).
  vm_compute. reflexivity.
Defined.

(** What is written for a table: the columns follow the fields of the
    struct one for one and in their order; with the synthetic id the
    id column comes first and the primary key is the id, whatever
    explicit primary key the annotation lists; without it the explicit
    list, if it is not empty, gives the primary key clause, and
    otherwise there is none. *)
Theorem table_block_contents
        (snakeCase : string -> string) (typeExprToStringUnscoped : TypeExpr -> string)
        (resolver : DeclResolver) (fuel : nat) (dbProfile : DbProfile)
        (st st' : GenState) (t : DbTable) :
  tableStep snakeCase typeExprToStringUnscoped resolver fuel dbProfile st t = Ok st' ->
  exists cols pre post,
    map fst cols = struct_fields (dbt_struct t) /\
    Forall (fun fc => getColumnType snakeCase resolver fuel (field_typeExpr (fst fc)) dbProfile
                      = Ok (snd fc)) cols /\
    written st'
    = (written st
       ++ [newline; createTableStatement t]
       ++ renderLines (pre ++ map (columnLine snakeCase typeExprToStringUnscoped) cols ++ post)
       ++ [(");" ++ newline)%string])%list /\
    (annFlag (dbt_ann t) withIdPrimaryKey = true ->
     pre = [ {| code := "id " ++ idColumnType dbProfile ++ " not null"; comment := None |} ] /\
     post = [ {| code := "primary key(id)"; comment := None |} ]) /\
    (annFlag (dbt_ann t) withIdPrimaryKey = false ->
     pre = [] /\
     (annProp (dbt_ann t) withPrimaryKey [] = [] -> post = []) /\
     (annProp (dbt_ann t) withPrimaryKey [] <> [] ->
      post = [ {| code := "primary key("
                          ++ String.concat "," (map (findColName snakeCase t)
                                                    (annProp (dbt_ann t) withPrimaryKey []))
                          ++ ")";
                  comment := None |} ])).
Proof.
  destruct st as [w cs x]. rewrite tableStep_layout.
  destruct (mappedFields snakeCase resolver fuel dbProfile (struct_fields (dbt_struct t)))
    as [cols|e|] eqn:Hcols; cbn [bind]; try discriminate.
  intros Hst. apply Ok_inj in Hst. subst st'. cbn [written].
  destruct (mappedFields_fst _ _ _ _ _ _ Hcols) as [Hfst Hall].
  exists cols, (idLines dbProfile t), (primaryKeyLines snakeCase t).
  split; [exact Hfst|]. split; [exact Hall|]. split; [reflexivity|].
  unfold idLines, primaryKeyLines. split.
  - intros ->. split; reflexivity.
  - intros ->. split; [reflexivity|]. split.
    + intros ->. reflexivity.
    + intros Hne. destruct (annProp (dbt_ann t) withPrimaryKey []); [contradiction | reflexivity].
Qed.

Lemma table_block_contents_witness :
  Forall (fun t =>
            exists st',
              tableStep Sample.snakeCase Sample.typeExprToStringUnscoped
                        (declResolver Sample.modules) 10 postgresDbProfile
                        {| written := []; constraints := []; allExtraSql := [] |} t = Ok st' /\
              exists cols : list (Field * ColumnType),
                map fst cols = struct_fields (dbt_struct t))
         sampleTables.
Proof.
  apply Forall_forall. intros t Ht.
  assert (Hrun : exists st',
             tableStep Sample.snakeCase Sample.typeExprToStringUnscoped
                       (declResolver Sample.modules) 10 postgresDbProfile
                       {| written := []; constraints := []; allExtraSql := [] |} t = Ok st').
  { destruct Ht as [<-|[<-|[]]]; eexists; vm_compute; reflexivity. }
  destruct Hrun as [st' Hrun]. exists st'. split; [exact Hrun|].
  destruct (table_block_contents _ _ _ _ _ _ _ _ Hrun) as (cols & pre & post & Hfst & _).
  exists cols. exact Hfst.
Defined.

(** ** Tables of the same name *)

Lemma filter_none {A : Type} (p : A -> bool) (l : list A) :
  (forall z, In z l -> p z = false) -> filter p l = [].
Proof.
  induction l as [|z l IH]; intros Hnone; [reflexivity|].
  cbn [filter]. rewrite (Hnone z (or_introl eq_refl)).
  apply IH. intros w Hw. apply Hnone. right. exact Hw.
Qed.

Lemma insertSorted_tablesNamed_other (n : string) (x : DbTable) (l : list DbTable) :
  (dbt_name x =? n) = false ->
  tablesNamed n (insertSorted compareTables x l) = tablesNamed n l.
Proof.
  intros Hx. unfold tablesNamed.
  induction l as [|y l IH]; cbn [insertSorted filter]; [rewrite Hx; reflexivity|].
  destruct (compareTables x y <? 0)%Z; cbn [filter]; [rewrite Hx; reflexivity|].
  rewrite IH. reflexivity.
Qed.

Lemma insertSorted_tablesNamed_same (x : DbTable) (l : list DbTable) :
  tablesAscending l ->
  tablesNamed (dbt_name x) (insertSorted compareTables x l)
  = (tablesNamed (dbt_name x) l ++ [x])%list.
Proof.
  unfold tablesNamed, tablesAscending.
  induction l as [|y l IH]; intros Hs; cbn [insertSorted filter].
  - rewrite String.eqb_refl. reflexivity.
  - rewrite compareTables_negative.
    inversion Hs as [|? ? Hl Hy]; subst. rewrite Forall_forall in Hy.
    destruct (String.ltb (dbt_name x) (dbt_name y)) eqn:Hlt.
    + cbn [filter]. rewrite String.eqb_refl.
      assert (Hnone : forall z, In z (y :: l) -> (dbt_name z =? dbt_name x) = false).
      { intros z Hz. apply String.eqb_neq. intros Heq.
        assert (Hxz : String.ltb (dbt_name x) (dbt_name z) = true).
        { destruct Hz as [<-|Hz]; [exact Hlt|].
          destruct (proj1 (leb_iff_ltb_or_eq _ _) (Hy z Hz)) as [Hyz|Heq'].
          - exact (ltb_trans _ _ _ Hlt Hyz).
          - rewrite <- Heq'. exact Hlt. }
        rewrite Heq, ltb_irrefl in Hxz. discriminate. }
      pose proof (filter_none (fun t => dbt_name t =? dbt_name x) (y :: l) Hnone) as Hfilter.
      cbn [filter] in Hfilter. rewrite Hfilter. reflexivity.
    + cbn [filter]. rewrite (IH Hl).
      destruct (dbt_name y =? dbt_name x); reflexivity.
Qed.

Lemma sort_tablesNamed_from (n : string) (l : list DbTable) :
  forall acc,
    tablesAscending acc ->
    tablesNamed n (fold_left (fun sorted x => insertSorted compareTables x sorted) l acc)
    = (tablesNamed n acc ++ tablesNamed n l)%list.
Proof.
  induction l as [|x l IH]; intros acc Hacc; cbn [fold_left].
  - unfold tablesNamed at 3. cbn [filter]. rewrite app_nil_r. reflexivity.
  - rewrite (IH _ (insertSorted_ascending x acc Hacc)).
    unfold tablesNamed at 4. cbn [filter]. fold (tablesNamed n l).
    destruct (String.eqb_spec (dbt_name x) n) as [<-|Hne].
    + rewrite (insertSorted_tablesNamed_same x acc Hacc), <- app_assoc. reflexivity.
    + rewrite insertSorted_tablesNamed_other; [reflexivity|].
      apply String.eqb_neq. exact Hne.
Qed.

(** The sort is stable: tables of one and the same derived name are
    emitted in the order in which the modules declare them. *)
Theorem equal_names_keep_declaration_order
        (snakeCase : string -> string) (modules : list Module) (n : string) :
  tablesNamed n (collectDbTables snakeCase modules)
  = tablesNamed n (flat_map (dbTableOfDecl snakeCase) (forEachDecl modules)).
Proof.
  unfold collectDbTables, sort.
  rewrite sort_tablesNamed_from by constructor. reflexivity.
Qed.

(** ** The header *)

Lemma existsb_eqb_In (x : string) (l : list string) :
  existsb (String.eqb x) l = true <-> In x l.
Proof.
  rewrite existsb_exists. split.
  - intros (y & Hy & Heq). apply String.eqb_eq in Heq. subst. exact Hy.
  - intros Hx. exists x. split; [exact Hx | apply String.eqb_refl].
Qed.

Lemma setKeys_In (l : list string) :
  forall seen x, In x (setKeys seen l) <-> In x l /\ ~ In x seen.
Proof.
  induction l as [|y l IH]; intros seen x; cbn [setKeys].
  - split; [intros [] | intros [[] _]].
  - destruct (existsb (String.eqb y) seen) eqn:Hy.
    + apply existsb_eqb_In in Hy. rewrite IH. split.
      * intros [Hx Hns]. split; [right; exact Hx | exact Hns].
      * intros [[<-|Hx] Hns]; [contradiction | split; assumption].
    + assert (Hny : ~ In y seen).
      { intros Hin. apply existsb_eqb_In in Hin. rewrite Hin in Hy. discriminate. }
      cbn [In]. rewrite IH. cbn [In]. split.
      * intros [<-|[Hx Hns]]; [split; [left; reflexivity | exact Hny]|].
        split; [right; exact Hx | intros Hs; apply Hns; right; exact Hs].
      * intros [[<-|Hx] Hns]; [left; reflexivity|].
        destruct (String.eqb_spec y x) as [Heq|Hne]; [left; exact Heq|].
        right. split; [exact Hx|]. intros [Heq|Hs]; [exact (Hne Heq) | exact (Hns Hs)].
Qed.

Lemma setKeys_NoDup (l : list string) : forall seen, NoDup (setKeys seen l).
Proof.
  induction l as [|y l IH]; intros seen; cbn [setKeys]; [constructor|].
  destruct (existsb (String.eqb y) seen); [apply IH|].
  constructor; [|apply IH].
  intros Hin. apply setKeys_In in Hin. destruct Hin as [_ Hn]. apply Hn. left. reflexivity.
Qed.

(** The first line of the file names every module that contributes a
    table, each of them once. *)
Theorem header_names_each_module_once
        (snakeCase : string -> string) (typeExprToStringUnscoped : TypeExpr -> string)
        (fuel : nat) (loadedAdl : LoadedAdl) (dbProfile : DbProfile) (out : list string) :
  generateSqlSchema snakeCase typeExprToStringUnscoped fuel loadedAdl dbProfile = Ok out ->
  exists names rest,
    out = ("-- Schema auto-generated from adl modules: " ++ String.concat ", " names ++ newline)
          :: rest /\
    NoDup names /\
    forall m, In m names <->
              exists t, In t (collectDbTables snakeCase (adl_modules loadedAdl)) /\
                        sd_moduleName (dbt_scopedDecl t) = m.
Proof.
  rewrite generateSqlSchema_layout.
  destruct (mappedTables snakeCase (adl_resolver loadedAdl) fuel dbProfile
                         (collectDbTables snakeCase (adl_modules loadedAdl)))
    as [mts|e|]; cbn [bind]; try discriminate.
  intros Hout. apply Ok_inj in Hout. subst out.
  unfold schemaHeader. cbn [app]. eexists. eexists. split; [reflexivity|].
  split; [apply setKeys_NoDup|].
  intros m. rewrite setKeys_In, in_map_iff. split.
  - intros [(t & Hm & Ht) _]. exists t. split; assumption.
  - intros (t & Ht & Hm). split; [exists t; split; assumption | intros []].
Qed.

Lemma header_names_each_module_once_witness :
  generateSqlSchema Sample.snakeCase Sample.typeExprToStringUnscoped 10 Sample.loadedWithCrm
                    postgresDbProfile = Ok Sample.schemaWithCrm /\
  exists names rest,
    Sample.schemaWithCrm
    = ("-- Schema auto-generated from adl modules: " ++ String.concat ", " names ++ newline)
      :: rest /\
    NoDup names.
Proof.
  assert (Hrun : generateSqlSchema Sample.snakeCase Sample.typeExprToStringUnscoped 10
                                   Sample.loadedWithCrm postgresDbProfile
                 = Ok Sample.schemaWithCrm) by (vm_compute; reflexivity).
  split; [exact Hrun|].
  destruct (header_names_each_module_once
              Sample.snakeCase Sample.typeExprToStringUnscoped 10 Sample.loadedWithCrm
              postgresDbProfile Sample.schemaWithCrm Hrun)
    as (names & rest & Heq & Hnd & _).
  exists names, rest. split; [exact Heq | exact Hnd].
Defined.

(** * The names of the index and uniqueness constraints *)

From Stdlib Require DecimalNat.

Lemma numberToString_digits (n : nat) : allDigits (numberToString n) = true.
Proof.
  unfold numberToString. induction (Nat.to_uint n) as [|d IH|d IH|d IH|d IH|d IH|d IH|d IH|d IH|d IH|d IH];
    simpl; try reflexivity; exact IH.
Qed.

Lemma numberToString_inj (a b : nat) : numberToString a = numberToString b -> a = b.
Proof.
  unfold numberToString. intros H.
  apply DecimalNat.Unsigned.to_uint_inj.
  pose proof (DecimalString.NilEmpty.usu (Nat.to_uint a)) as Ha.
  pose proof (DecimalString.NilEmpty.usu (Nat.to_uint b)) as Hb.
  rewrite H in Ha. rewrite Ha in Hb. injection Hb as Hb. exact Hb.
Qed.

Lemma append_inv_head (p x y : string) : p ++ x = p ++ y -> x = y.
Proof. induction p as [|c p IH]; simpl; [auto | intros [= H]; exact (IH H)]. Qed.

Lemma digits_before_underscore (a : string) :
  forall b r1 r2,
    allDigits a = true -> allDigits b = true ->
    a ++ String "_" r1 = b ++ String "_" r2 -> a = b.
Proof.
  induction a as [|c a IH]; intros [|d b] r1 r2 Ha Hb Heq; simpl in *.
  - reflexivity.
  - injection Heq as Hc _. subst d. discriminate.
  - injection Heq as Hc _. subst c. discriminate.
  - injection Heq as -> Heq.
    apply andb_true_iff in Ha, Hb. destruct Ha as [_ Ha], Hb as [_ Hb].
    rewrite (IH b r1 r2 Ha Hb Heq). reflexivity.
Qed.

Lemma indexConstraint_inj (t : DbTable) (i j : nat) (c1 c2 : list string) :
  indexConstraint t i c1 = indexConstraint t j c2 -> i = j.
Proof.
  unfold indexConstraint. intros H.
  apply (append_inv_head "create index ") in H.
  apply (append_inv_head (dbt_name t)) in H.
  apply (append_inv_head "_") in H. simpl in H.
  apply digits_before_underscore in H; try apply numberToString_digits.
  apply numberToString_inj in H. lia.
Qed.

Lemma uniquenessConstraint_inj (t : DbTable) (i j : nat) (c1 c2 : list string) :
  uniquenessConstraint t i c1 = uniquenessConstraint t j c2 -> i = j.
Proof.
  unfold uniquenessConstraint. intros H.
  apply (append_inv_head "alter table ") in H.
  apply (append_inv_head (dbt_name t)) in H.
  apply (append_inv_head " add constraint ") in H.
  apply (append_inv_head (dbt_name t)) in H.
  apply (append_inv_head "_") in H. simpl in H.
  apply digits_before_underscore in H; try apply numberToString_digits.
  apply numberToString_inj in H. lia.
Qed.

Section Numbered.

Variable snakeCase : string -> string.
Variable t : DbTable.

Lemma indexStatementsFrom_nth (groups : list (list string)) :
  forall k i g,
    nth_error groups i = Some g ->
    nth_error (indexStatementsFrom snakeCase t k groups) i
    = Some (indexConstraint t (k + i) (map (findColName snakeCase t) g)).
Proof.
  induction groups as [|h groups IH]; intros k [|i] g; cbn [nth_error indexStatementsFrom];
    try discriminate.
  - intros [= <-]. rewrite Nat.add_0_r. reflexivity.
  - intros Hg. rewrite (IH (S k) i g Hg). f_equal. f_equal. lia.
Qed.

Lemma indexStatementsFrom_In (groups : list (list string)) :
  forall k s, In s (indexStatementsFrom snakeCase t k groups) ->
              exists i c, k <= i /\ s = indexConstraint t i c.
Proof.
  induction groups as [|h groups IH]; intros k s; cbn [indexStatementsFrom]; [intros []|].
  intros [<-|Hin]; [eexists; eexists; split; [apply Nat.le_refl | reflexivity]|].
  destruct (IH (S k) s Hin) as (i & c & Hle & ->). exists i, c. split; [lia | reflexivity].
Qed.

Lemma indexStatementsFrom_NoDup (groups : list (list string)) :
  forall k, NoDup (indexStatementsFrom snakeCase t k groups).
Proof.
  induction groups as [|h groups IH]; intros k; cbn [indexStatementsFrom]; constructor;
    [|apply IH].
  intros Hin. destruct (indexStatementsFrom_In _ _ _ Hin) as (i & c & Hle & Heq).
  apply indexConstraint_inj in Heq. lia.
Qed.

Lemma indexStatementsFrom_length (groups : list (list string)) :
  forall k, List.length (indexStatementsFrom snakeCase t k groups) = List.length groups.
Proof.
  induction groups as [|h groups IH]; intros k; cbn [indexStatementsFrom List.length];
    [reflexivity | rewrite IH; reflexivity].
Qed.

Lemma uniquenessStatementsFrom_nth (groups : list (list string)) :
  forall k i g,
    nth_error groups i = Some g ->
    nth_error (uniquenessStatementsFrom snakeCase t k groups) i
    = Some (uniquenessConstraint t (k + i) (map (findColName snakeCase t) g)).
Proof.
  induction groups as [|h groups IH]; intros k [|i] g;
    cbn [nth_error uniquenessStatementsFrom]; try discriminate.
  - intros [= <-]. rewrite Nat.add_0_r. reflexivity.
  - intros Hg. rewrite (IH (S k) i g Hg). f_equal. f_equal. lia.
Qed.

Lemma uniquenessStatementsFrom_In (groups : list (list string)) :
  forall k s, In s (uniquenessStatementsFrom snakeCase t k groups) ->
              exists i c, k <= i /\ s = uniquenessConstraint t i c.
Proof.
  induction groups as [|h groups IH]; intros k s; cbn [uniquenessStatementsFrom];
    [intros []|].
  intros [<-|Hin]; [eexists; eexists; split; [apply Nat.le_refl | reflexivity]|].
  destruct (IH (S k) s Hin) as (i & c & Hle & ->). exists i, c. split; [lia | reflexivity].
Qed.

Lemma uniquenessStatementsFrom_NoDup (groups : list (list string)) :
  forall k, NoDup (uniquenessStatementsFrom snakeCase t k groups).
Proof.
  induction groups as [|h groups IH]; intros k; cbn [uniquenessStatementsFrom]; constructor;
    [|apply IH].
  intros Hin. destruct (uniquenessStatementsFrom_In _ _ _ Hin) as (i & c & Hle & Heq).
  apply uniquenessConstraint_inj in Heq. lia.
Qed.

Lemma uniquenessStatementsFrom_length (groups : list (list string)) :
  forall k, List.length (uniquenessStatementsFrom snakeCase t k groups) = List.length groups.
Proof.
  induction groups as [|h groups IH]; intros k; cbn [uniquenessStatementsFrom List.length];
    [reflexivity | rewrite IH; reflexivity].
Qed.

End Numbered.

(** The loop over the index groups adds one statement per group, in
    the order of the groups; the statement of the group at position
    [i] carries the ordinal [i + 1] in its name, and no two of the
    statements of a table are equal.  Nothing is written by the
    loop. *)
Theorem index_statements_numbered
        (snakeCase : string -> string) (t : DbTable) (groups : list (list string))
        (st : GenState) :
  exists added,
    constraints (indexesLoop snakeCase t 0 groups st) = (constraints st ++ added)%list /\
    written (indexesLoop snakeCase t 0 groups st) = written st /\
    List.length added = List.length groups /\
    (forall i g,
        nth_error groups i = Some g ->
        nth_error added i
        = Some ("create index " ++ dbt_name t ++ "_" ++ numberToString (i + 1) ++ "_idx on "
                ++ dbt_name t ++ "("
                ++ String.concat ", " (map (findColName snakeCase t) g) ++ ");")) /\
    NoDup added.
Proof.
  destruct st as [w cs x]. rewrite indexesLoop_layout. cbn [constraints written].
  exists (indexStatementsFrom snakeCase t 0 groups).
  split; [reflexivity|]. split; [reflexivity|].
  split; [apply indexStatementsFrom_length|].
  split; [|apply indexStatementsFrom_NoDup].
  intros i g Hg. rewrite (indexStatementsFrom_nth snakeCase t groups 0 i g Hg). reflexivity.
Qed.

(** The same for the loop over the uniqueness groups, whose statements
    are named with the suffix "_con". *)
Theorem uniqueness_statements_numbered
        (snakeCase : string -> string) (t : DbTable) (groups : list (list string))
        (st : GenState) :
  exists added,
    constraints (uniquenessLoop snakeCase t 0 groups st) = (constraints st ++ added)%list /\
    written (uniquenessLoop snakeCase t 0 groups st) = written st /\
    List.length added = List.length groups /\
    (forall i g,
        nth_error groups i = Some g ->
        nth_error added i
        = Some ("alter table " ++ dbt_name t ++ " add constraint " ++ dbt_name t ++ "_"
                ++ numberToString (i + 1) ++ "_con unique ("
                ++ String.concat ", " (map (findColName snakeCase t) g) ++ ");")) /\
    NoDup added.
Proof.
  destruct st as [w cs x]. rewrite uniquenessLoop_layout. cbn [constraints written].
  exists (uniquenessStatementsFrom snakeCase t 0 groups).
  split; [reflexivity|]. split; [reflexivity|].
  split; [apply uniquenessStatementsFrom_length|].
  split; [|apply uniquenessStatementsFrom_NoDup].
  intros i g Hg. rewrite (uniquenessStatementsFrom_nth snakeCase t groups 0 i g Hg). reflexivity.
Qed.

(** * The generated file is made of lines *)

Lemma isLine_append (a b : string) : isLine b -> isLine (a ++ b).
Proof. intros [text ->]. exists (a ++ text). rewrite append_assoc. reflexivity. Qed.

Lemma isLine_newline : isLine newline.
Proof. exists "". reflexivity. Qed.

Lemma isLine_text (a : string) : isLine (a ++ newline).
Proof. exists a. reflexivity. Qed.

Lemma renderLines_lines (lines : list Line) : Forall isLine (renderLines lines).
Proof.
  induction lines as [|l lines IH]; cbn [renderLines];
    [apply Forall_nil | apply Forall_cons; [|exact IH]].
  unfold renderLine. apply isLine_append. apply isLine_text.
Qed.

Lemma map_newline_lines (l : list string) : Forall isLine (map (fun c => c ++ newline) l).
Proof.
  induction l as [|c l IH]; cbn [map];
    [apply Forall_nil | apply Forall_cons; [apply isLine_text | exact IH]].
Qed.

(** Every string the generator writes ends with a line feed, so the
    file is made of complete lines. *)
Theorem output_is_made_of_lines
        (snakeCase : string -> string) (typeExprToStringUnscoped : TypeExpr -> string)
        (fuel : nat) (loadedAdl : LoadedAdl) (dbProfile : DbProfile) (out : list string) :
  generateSqlSchema snakeCase typeExprToStringUnscoped fuel loadedAdl dbProfile = Ok out ->
  Forall isLine out.
Proof.
  rewrite generateSqlSchema_layout.
  destruct (mappedTables snakeCase (adl_resolver loadedAdl) fuel dbProfile
                         (collectDbTables snakeCase (adl_modules loadedAdl)))
    as [mts|e|]; cbn [bind]; try discriminate.
  intros Hout. apply Ok_inj in Hout. subst out.
  apply Forall_app. split; [|apply Forall_app; split; [|apply Forall_app; split]].
  - unfold schemaHeader.
    apply Forall_cons; [apply isLine_append, isLine_append, isLine_newline|].
    apply Forall_cons; [apply isLine_text|].
    apply Forall_cons; [apply isLine_text | apply Forall_nil].
  - apply Forall_flat_map. apply Forall_forall. intros mt _.
    unfold tableBlock. apply Forall_app. split; [|apply Forall_app; split].
    + apply Forall_cons; [apply isLine_newline|].
      apply Forall_cons; [|apply Forall_nil].
      unfold createTableStatement. apply isLine_append, isLine_append, isLine_text.
    + apply renderLines_lines.
    + apply Forall_cons; [apply isLine_text | apply Forall_nil].
  - unfold constraintSection, separator. apply Forall_app. split.
    + destruct (0 <? List.length _)%nat;
        [apply Forall_cons; [apply isLine_newline | apply Forall_nil] | apply Forall_nil].
    + apply map_newline_lines.
  - unfold extraSqlSection, separator. apply Forall_app. split.
    + destruct (0 <? List.length _)%nat;
        [apply Forall_cons; [apply isLine_newline | apply Forall_nil] | apply Forall_nil].
    + apply map_newline_lines.
Qed.

Lemma output_is_made_of_lines_witness :
  generateSqlSchema Sample.snakeCase Sample.typeExprToStringUnscoped 10 Sample.loadedAdl
                    postgresDbProfile = Ok Sample.schema /\
  Forall isLine Sample.schema.
Proof.
  assert (Hrun : generateSqlSchema Sample.snakeCase Sample.typeExprToStringUnscoped 10
                                   Sample.loadedAdl postgresDbProfile = Ok Sample.schema)
    by (vm_compute; reflexivity).
  split; [exact Hrun|].
  exact (output_is_made_of_lines
           Sample.snakeCase Sample.typeExprToStringUnscoped 10 Sample.loadedAdl
           postgresDbProfile Sample.schema Hrun).
Defined.
